(** * Sarmad: the observing web client and the engine contract it displays

    The repository's visible source is the React client
    [sarmad/frontend/app.jsx].  It receives the engine's events over a
    WebSocket, keeps them in component state and renders them.  This file
    embeds the client's state, its message handler, its start handler and
    the parts of its components that decide what is displayed, and proves
    the properties the specification states about them.

    The engine itself (session coordinator, window narrowing search) lives
    in the backend, which is not part of the visible source.  The two
    modules [SessionCoordinator] and [WindowNarrowing] at the end of the
    definitions are written from the specification's text and are marked
    as such. *)

From Stdlib Require Import QArith Qround Lqa.
From stdpp Require Import base strings list gmap.

Close Scope Q_scope.
Open Scope string_scope.
Open Scope list_scope.

(** ** JavaScript values as [JSON.parse] produces them *)

Module Js.

(** A parsed JSON text, plus [undefined] for an absent property.  JSON
    numbers are finite, so a rational carries them; the client performs
    no arithmetic on the numbers of the paths embedded here. *)
#[warnings="-register-all"]
Inductive JsVal : Type :=
| JUndefined
| JNull
| JBool (b : bool)
| JNum (q : Q)
| JStr (s : string)
| JArr (elems : list JsVal)
| JObj (props : list (string * JsVal)).

(** ToBoolean: [undefined], [null], [false], [0] and the empty string
    are falsy, every array and object is truthy. *)
Definition truthy (v : JsVal) : bool :=
  match v with
  | JUndefined | JNull => false
  | JBool b => b
  | JNum q => negb (Qnum q =? 0)%Z
  | JStr s => negb (String.eqb s "")
  | JArr _ | JObj _ => true
  end.

(** [v === 'lit'] against a string literal. *)
Definition strictEqStr (v : JsVal) (lit : string) : bool :=
  match v with
  | JStr s => String.eqb s lit
  | _ => false
  end.

(** Own-property lookup in a parsed object. *)
Fixpoint own (props : list (string * JsVal)) (k : string) : option JsVal :=
  match props with
  | [] => None
  | (k', v) :: rest => if String.eqb k' k then Some v else own rest k
  end.

(** [v.k] on a value that is neither [null] nor [undefined], for the
    property names the client reads from payloads ([type], [status],
    [data], [keywords], [bigrams], [low_hour], [high_hour], [tweet],
    [iterations], [id], [is_source], [public_metrics], [retweet_count],
    [like_count], [reply_count], [timestamp], [level], [message]): none
    of them is defined by a built-in prototype, so the result is the own
    property or [undefined]. *)
Definition field (v : JsVal) (k : string) : JsVal :=
  match v with
  | JObj props => default JUndefined (own props k)
  | _ => JUndefined
  end.

(** [v.k] where [v] may be anything: reading a property of [null] or
    [undefined] throws a TypeError, which is [None]. *)
Definition member (v : JsVal) (k : string) : option JsVal :=
  match v with
  | JUndefined | JNull => None
  | _ => Some (field v k)
  end.

(** [v?.k]: optional chaining yields [undefined] instead of throwing. *)
Definition optMember (v : JsVal) (k : string) : JsVal :=
  match v with
  | JUndefined | JNull => JUndefined
  | _ => field v k
  end.

(** [a || b] and [a && b]. *)
Definition orElse (a b : JsVal) : JsVal := if truthy a then a else b.
Definition andAlso (a b : JsVal) : JsVal := if truthy a then b else a.

(** A default parameter value is used exactly when the argument is
    [undefined]. *)
Definition defaultParam (dflt arg : JsVal) : JsVal :=
  match arg with
  | JUndefined => dflt
  | _ => arg
  end.

Definition num (z : Z) : JsVal := JNum (inject_Z z).

End Js.

Import Js.

(** ** Component state of [App] and of the [useWebSocket] hook *)

Module App.

(** The object literal [{ low_hour: ..., high_hour: ... }] held by the
    [searchWindow] state. *)
Record SearchWindow : Type := {
  low_hour : JsVal;
  high_hour : JsVal
}.

(** One field per [useState] of [App]; [isConnected] is the state the
    [useWebSocket] hook returns.  [logs] only ever holds an array (it
    starts as [[]] and is replaced by [[]] or by a spread of itself), so
    it is a list. *)
Record AppState : Type := {
  status : JsVal;
  logs : list JsVal;
  keywords : JsVal;
  bigrams : JsVal;
  volumeData : JsVal;
  searchWindow : SearchWindow;
  sourceTweet : JsVal;
  iterations : JsVal;
  tweets : JsVal;
  isNLPLoading : bool;
  isConnected : bool
}.

Definition initialState : AppState := {|
  status := JStr "idle";
  logs := [];
  keywords := JArr [];
  bigrams := JArr [];
  volumeData := JArr [];
  searchWindow := {| low_hour := num 0; high_hour := num 24 |};
  sourceTweet := JNull;
  iterations := num 0;
  tweets := JArr [];
  isNLPLoading := false;
  isConnected := false
|}.

(** What lies outside React: the socket behind [wsRef], the messages
    handed to [ws.send], and the page location.  [location_search] is
    the parameter list that [new URLSearchParams(window.location.search)]
    yields, names and values already decoded, in URL order. *)
Record Browser : Type := {
  socketOpen : bool;
  outbox : list JsVal;
  location_pathname : string;
  location_search : list (string * string)
}.

Record World : Type := {
  app : AppState;
  browser : Browser
}.

(** The calls a handler makes, in program order.  A state setter takes
    effect at the next render; React applies the queued updates in the
    order of the calls, so running the list in order gives the state of
    that render. *)
Inductive Cmd : Type :=
| SetStatus (v : JsVal)
| SetLogs (updater : list JsVal -> list JsVal)
| SetKeywords (v : JsVal)
| SetBigrams (v : JsVal)
| SetVolumeData (v : JsVal)
| SetSearchWindow (w : SearchWindow)
| SetSourceTweet (v : JsVal)
| SetIterations (v : JsVal)
| SetTweets (v : JsVal)
| SetIsNLPLoading (b : bool)
| SetIsConnected (b : bool)
| SendMessage (message : JsVal)
| HistoryReplaceState (url : string).

Definition setState (c : Cmd) (s : AppState) : AppState :=
  match c with
  | SetStatus v =>
      {| status := v; logs := logs s; keywords := keywords s;
         bigrams := bigrams s; volumeData := volumeData s;
         searchWindow := searchWindow s; sourceTweet := sourceTweet s;
         iterations := iterations s; tweets := tweets s;
         isNLPLoading := isNLPLoading s; isConnected := isConnected s |}
  | SetLogs f =>
      {| status := status s; logs := f (logs s); keywords := keywords s;
         bigrams := bigrams s; volumeData := volumeData s;
         searchWindow := searchWindow s; sourceTweet := sourceTweet s;
         iterations := iterations s; tweets := tweets s;
         isNLPLoading := isNLPLoading s; isConnected := isConnected s |}
  | SetKeywords v =>
      {| status := status s; logs := logs s; keywords := v;
         bigrams := bigrams s; volumeData := volumeData s;
         searchWindow := searchWindow s; sourceTweet := sourceTweet s;
         iterations := iterations s; tweets := tweets s;
         isNLPLoading := isNLPLoading s; isConnected := isConnected s |}
  | SetBigrams v =>
      {| status := status s; logs := logs s; keywords := keywords s;
         bigrams := v; volumeData := volumeData s;
         searchWindow := searchWindow s; sourceTweet := sourceTweet s;
         iterations := iterations s; tweets := tweets s;
         isNLPLoading := isNLPLoading s; isConnected := isConnected s |}
  | SetVolumeData v =>
      {| status := status s; logs := logs s; keywords := keywords s;
         bigrams := bigrams s; volumeData := v;
         searchWindow := searchWindow s; sourceTweet := sourceTweet s;
         iterations := iterations s; tweets := tweets s;
         isNLPLoading := isNLPLoading s; isConnected := isConnected s |}
  | SetSearchWindow w =>
      {| status := status s; logs := logs s; keywords := keywords s;
         bigrams := bigrams s; volumeData := volumeData s;
         searchWindow := w; sourceTweet := sourceTweet s;
         iterations := iterations s; tweets := tweets s;
         isNLPLoading := isNLPLoading s; isConnected := isConnected s |}
  | SetSourceTweet v =>
      {| status := status s; logs := logs s; keywords := keywords s;
         bigrams := bigrams s; volumeData := volumeData s;
         searchWindow := searchWindow s; sourceTweet := v;
         iterations := iterations s; tweets := tweets s;
         isNLPLoading := isNLPLoading s; isConnected := isConnected s |}
  | SetIterations v =>
      {| status := status s; logs := logs s; keywords := keywords s;
         bigrams := bigrams s; volumeData := volumeData s;
         searchWindow := searchWindow s; sourceTweet := sourceTweet s;
         iterations := v; tweets := tweets s;
         isNLPLoading := isNLPLoading s; isConnected := isConnected s |}
  | SetTweets v =>
      {| status := status s; logs := logs s; keywords := keywords s;
         bigrams := bigrams s; volumeData := volumeData s;
         searchWindow := searchWindow s; sourceTweet := sourceTweet s;
         iterations := iterations s; tweets := v;
         isNLPLoading := isNLPLoading s; isConnected := isConnected s |}
  | SetIsNLPLoading b =>
      {| status := status s; logs := logs s; keywords := keywords s;
         bigrams := bigrams s; volumeData := volumeData s;
         searchWindow := searchWindow s; sourceTweet := sourceTweet s;
         iterations := iterations s; tweets := tweets s;
         isNLPLoading := b; isConnected := isConnected s |}
  | SetIsConnected b =>
      {| status := status s; logs := logs s; keywords := keywords s;
         bigrams := bigrams s; volumeData := volumeData s;
         searchWindow := searchWindow s; sourceTweet := sourceTweet s;
         iterations := iterations s; tweets := tweets s;
         isNLPLoading := isNLPLoading s; isConnected := b |}
  | SendMessage _ | HistoryReplaceState _ => s
  end.

(** [sendMessage] of the hook: the message goes out only while the
    socket is open ([readyState === WebSocket.OPEN]), otherwise the call
    does nothing. *)
Definition sendMessage (message : JsVal) (b : Browser) : Browser :=
  if socketOpen b
  then {| socketOpen := socketOpen b; outbox := outbox b ++ [message];
          location_pathname := location_pathname b;
          location_search := location_search b |}
  else b.

(** [history.replaceState({}, title, url)] with a bare path leaves a
    location without query string. *)
Definition effect (c : Cmd) (b : Browser) : Browser :=
  match c with
  | SendMessage message => sendMessage message b
  | HistoryReplaceState url =>
      {| socketOpen := socketOpen b; outbox := outbox b;
         location_pathname := url; location_search := [] |}
  | _ => b
  end.

Definition exec (w : World) (c : Cmd) : World :=
  {| app := setState c (app w); browser := effect c (browser w) |}.

Definition run (cmds : list Cmd) (w : World) : World :=
  fold_left exec cmds w.


(** *** The effect on [lastMessage] (the [switch] on [lastMessage.type]) *)

Definition handleMessage (lastMessage : JsVal) : list Cmd :=
  if negb (truthy lastMessage) then []
  else
    let type := field lastMessage "type" in
    if strictEqStr type "status" then
      SetStatus (field lastMessage "status")
        :: (if strictEqStr (field lastMessage "status") "analyzing"
            then [SetIsNLPLoading true] else [])
    else if strictEqStr type "log" then
      [SetLogs (fun prev => prev ++ [lastMessage])]
    else if strictEqStr type "volume" then
      [SetVolumeData (field lastMessage "data")]
    else if strictEqStr type "nlp_result" then
      [SetKeywords (field lastMessage "keywords");
       SetBigrams (field lastMessage "bigrams");
       SetIsNLPLoading false]
    else if strictEqStr type "search_progress" then
      [SetSearchWindow {| low_hour := field lastMessage "low_hour";
                          high_hour := field lastMessage "high_hour" |}]
    else if strictEqStr type "source_found" then
      [SetSourceTweet (field lastMessage "tweet");
       SetIterations (field lastMessage "iterations")]
    else if strictEqStr type "tweets" then
      [SetTweets (field lastMessage "data")]
    else if strictEqStr type "analysis_complete" then
      []
    else [].

(** One run of the effect: the render finds [lastMessage] changed and
    the effect processes it. *)
Definition deliver (lastMessage : JsVal) (w : World) : World :=
  run (handleMessage lastMessage) w.

(** *** The [lastMessage] slot of [useWebSocket] *)

(** The client with the one slot in which the hook keeps the last parsed
    message, and whether the effect on it has yet to run.  Every parsed
    object is a new value, so an arrival always leaves the effect to
    run; for a primitive equal to the one in the slot React would skip
    the effect, which does nothing on a primitive anyway. *)
Record Client : Type := {
  world : World;
  lastMessage : JsVal;
  effectPending : bool
}.

(** A client whose effect has run on whatever the slot holds. *)
Definition settled (w : World) : Client :=
  {| world := w; lastMessage := JNull; effectPending := false |}.

(** [ws.onmessage]: [setLastMessage(JSON.parse(event.data))].  The slot
    is overwritten; nothing else happens until the next render. *)
Definition onmessage (data : JsVal) (c : Client) : Client :=
  {| world := world c; lastMessage := data; effectPending := true |}.

(** A render: the effect runs if [lastMessage] has changed since it last
    ran, on the message the slot holds now. *)
Definition render (c : Client) : Client :=
  if effectPending c
  then {| world := deliver (lastMessage c) (world c);
          lastMessage := lastMessage c;
          effectPending := false |}
  else c.

(** What happens to the client, in the order it happens: a message
    arrives, or React renders.  When React renders is its scheduler's
    choice; arrivals that come before it has rendered share one render. *)
Inductive Step : Type :=
| Arrives (data : JsVal)
| Renders.

Definition step (c : Client) (s : Step) : Client :=
  match s with
  | Arrives data => onmessage data c
  | Renders => render c
  end.

Definition play (schedule : list Step) (c : Client) : Client :=
  fold_left step schedule c.

(** The course of events in which React renders after every arrival,
    before the next message comes in: then every event is processed. *)
Definition deliverAll (events : list JsVal) (w : World) : World :=
  world (fold_left (fun c e => render (onmessage e c)) events (settled w)).

(** *** [handleStartAnalysis] *)

Definition startRequest (url tweetId : JsVal) : JsVal :=
  JObj [("action", JStr "start_analysis");
        ("tweet_url", url);
        ("tweet_id", tweetId)].

Definition handleStartAnalysis (url tweetIdArg : JsVal) : list Cmd :=
  let tweetId := defaultParam JNull tweetIdArg in
  [SetLogs (fun _ => []);
   SetKeywords (JArr []);
   SetBigrams (JArr []);
   SetSourceTweet JNull;
   SetIterations (num 0);
   SetSearchWindow {| low_hour := num 0; high_hour := num 24 |};
   SendMessage (startRequest url tweetId)].

(** *** The effect on [isConnected]: initial data and auto-start *)

(** [params.get(name)]: the value of the first parameter of that name,
    [null] when there is none. *)
Definition searchParams_get (params : list (string * string))
    (name : string) : JsVal :=
  match List.find (fun p => String.eqb (fst p) name) params with
  | Some p => JStr (snd p)
  | None => JNull
  end.

Definition getTweetsRequest : JsVal :=
  JObj [("action", JStr "get_tweets"); ("limit", num 50)].

Definition getVolumeRequest : JsVal :=
  JObj [("action", JStr "get_volume")].

(** [status] is the value of the render whose effect this is. *)
Definition connectEffect (s : AppState) (b : Browser) : list Cmd :=
  if isConnected s then
    [SendMessage getTweetsRequest; SendMessage getVolumeRequest]
    ++ (let tweetId := searchParams_get (location_search b) "tweet" in
        if truthy tweetId && strictEqStr (status s) "idle"
        then HistoryReplaceState (location_pathname b)
               :: handleStartAnalysis JNull tweetId
        else [])
  else [].

(** [ws.onopen]: the socket is open, [setIsConnected(true)]; the effect
    depends on [isConnected] and so runs when its value has changed. *)
Definition onopen (w : World) : World :=
  let w1 := {| app := setState (SetIsConnected true) (app w);
               browser := {| socketOpen := true;
                             outbox := outbox (browser w);
                             location_pathname := location_pathname (browser w);
                             location_search := location_search (browser w) |} |} in
  if isConnected (app w) then w1
  else run (connectEffect (app w1) (browser w1)) w1.

(** *** [StatusBadge] *)

Record BadgeConfig : Type := { label : string; color : string }.

Definition statusConfig : gmap string BadgeConfig :=
  list_to_map
    [("idle", {| label := "Ø¬Ø§Ù‡Ø² Ù„Ù„Ø±ØµØ¯"; color := "online" |});
     ("analyzing", {| label := "ØªØ­Ù„ÙŠÙ„ Ù„ØºÙˆÙŠ..."; color := "analyzing" |});
     ("searching", {| label := "Ø¨Ø­Ø« Ø¹ÙƒØ³ÙŠ..."; color := "searching" |});
     ("found", {| label := "ØªÙ… Ø¶Ø¨Ø· Ø§Ù„Ù‡Ø¯Ù"; color := "found" |})].

(** [statusConfig] is an object literal, so a key it does not own is
    looked up in [Object.prototype]. *)
Definition objectPrototypeMembers : list string :=
  ["constructor"; "__defineGetter__"; "__defineSetter__"; "hasOwnProperty";
   "__lookupGetter__"; "__lookupSetter__"; "isPrototypeOf";
   "propertyIsEnumerable"; "toString"; "valueOf"; "__proto__";
   "toLocaleString"].

Inductive Property : Type :=
| Config (c : BadgeConfig)
| BuiltIn
| Undefined.

(** [statusConfig[key]] *)
Definition statusConfig_at (key : string) : Property :=
  match statusConfig !! key with
  | Some c => Config c
  | None =>
      if bool_decide (key ∈ objectPrototypeMembers) then BuiltIn
      else Undefined
  end.

(** The rendered badge: the class of the dot and the text next to it. *)
Record Badge : Type := { dotClass : string; labelText : string }.

(** [status] is used as a property key only; the event contract makes
    it a string.  A built-in member is truthy and has neither [color]
    nor [label]: the template literal prints [undefined], the text node
    is empty. *)
Definition StatusBadge (status : string) : Badge :=
  let config :=
    match statusConfig_at status with
    | Undefined => statusConfig_at "idle"
    | p => p
    end in
  {| dotClass :=
       "status-dot " +:+
       match config with Config c => color c | _ => "undefined" end;
     labelText :=
       match config with Config c => label c | _ => "" end |}.


(** *** [ReportForm] and the props [App] gives it *)

Definition isAnalyzing (s : AppState) : bool :=
  strictEqStr (status s) "analyzing" || strictEqStr (status s) "searching".

(** [isDisabled={isAnalyzing || !isConnected}] *)
Definition ReportForm_isDisabled (s : AppState) : bool :=
  isAnalyzing s || negb (isConnected s).

(** [<button type="submit" disabled={isDisabled}>] *)
Definition ReportForm_button_disabled (isDisabled : bool) : bool :=
  isDisabled.

(** [handleSubmit]: [onSubmit(url)] with the text of the input. *)
Definition handleSubmit (onSubmit : JsVal -> list Cmd) (url : string)
    : list Cmd :=
  onSubmit (JStr url).

(** The form has one submit button.  The browser raises the form's
    submit event through that button only (a click on it, or Enter in
    the text input, which activates the default button), and does
    neither while the button is disabled. *)
Definition ReportForm_submit (onSubmit : JsVal -> list Cmd)
    (isDisabled : bool) (url : string) : list Cmd :=
  if ReportForm_button_disabled isDisabled then []
  else handleSubmit onSubmit url.

(** [<ReportForm onSubmit={handleStartAnalysis} .../>]: the form calls
    the handler with one argument, so [tweetId] is [undefined]. *)
Definition App_submitForm (s : AppState) (url : string) : list Cmd :=
  ReportForm_submit (fun u => handleStartAnalysis u JUndefined)
    (ReportForm_isDisabled s) url.

(** *** [Console] *)

Record ConsoleLine : Type := {
  line_time : JsVal;
  line_level : JsVal;
  line_message : JsVal
}.

(** [logs.map(...)]: one line per entry, in array order; [now] is the
    value of [Date.now()].  The empty list is the placeholder. *)
Definition Console (now : JsVal) (logs : list JsVal) : list ConsoleLine :=
  List.map
    (fun log =>
       {| line_time := orElse (field log "timestamp") now;
          line_level := orElse (field log "level") (JStr "");
          line_message := field log "message" |})
    logs.

(** *** The engagement counts of a [TweetCard] *)

Record Metrics : Type := {
  shown_retweets : JsVal;
  shown_likes : JsVal;
  shown_replies : JsVal
}.


(** *** The tweet feed of [App] *)

(** The props of one [TweetCard] of the feed. *)
Record FeedCard : Type := {
  card_key : JsVal;
  card_tweet : JsVal;
  card_isSource : JsVal
}.

(** The callback of [.map((tweet, i) => ...)]: [tweet.id || i] and
    [tweet.is_source && status === 'found']. *)
Definition feedCard (status : JsVal) (i : nat) (tweet : JsVal)
    : option FeedCard :=
  id ← member tweet "id";
  is_source ← member tweet "is_source";
  Some {| card_key := orElse id (num (Z.of_nat i));
          card_tweet := tweet;
          card_isSource :=
            andAlso is_source (JBool (strictEqStr status "found")) |}.

Fixpoint feedCards (status : JsVal) (i : nat) (posts : list JsVal)
    : option (list FeedCard) :=
  match posts with
  | [] => Some []
  | tweet :: rest =>
      card ← feedCard status i tweet;
      cards ← feedCards status (S i) rest;
      Some (card :: cards)
  end.

(** [tweets.slice(0, 30).map(...)].  [tweets] holds whatever the last
    [tweets] event carried; anything but an array makes the render
    throw ([None]). *)
Definition TweetFeed (tweets status : JsVal) : option (list FeedCard) :=
  match tweets with
  | JArr posts => feedCards status 0 (take 30 posts)
  | _ => None
  end.

(** *** [SourceResult] *)

Inductive SourceView : Type :=
| Standby
| SourceCard (tweet iterations : JsVal).

Definition SourceResult (tweet iterations : JsVal) : SourceView :=
  if negb (truthy tweet) then Standby else SourceCard tweet iterations.

(** [<SourceResult tweet={sourceTweet} iterations={iterations} />] *)
Definition App_sourceResult (s : AppState) : SourceView :=
  SourceResult (sourceTweet s) (iterations s).

End App.

(** ** The engine, as the specification describes it *)

Module SessionCoordinator.

(** Modelled from the spec: the states of section 4.4 (the coordinator
    is backend code, not in the visible source). *)
Inductive Status : Type := idle | analyzing | searching | found | failed.

(** Modelled from the spec: the error of section 7 that a start request
    can meet. *)
Inductive Error : Type := BusySessionError.

(** Modelled from the spec: the session coordinator's handling of a
    start request (backend [main.py], not in the visible source).
    Section 4.4: [idle] is the only state accepting a new start request,
    [idle --start--> analyzing]; a start request while not [idle] fails
    with [BusySessionError].  Section 7: the error is raised at the
    boundary and leaves the run state untouched. *)
Definition start (s : Status) : Status * option Error :=
  match s with
  | idle => (analyzing, None)
  | _ => (s, Some BusySessionError)
  end.

(** Modelled from the spec: section 4.4,
    [analyzing/searching --cancel--> idle]; the other states have no
    cancel transition. *)
Definition cancel (s : Status) : Status :=
  match s with
  | analyzing | searching => idle
  | _ => s
  end.

End SessionCoordinator.

Module WindowNarrowing.

(** Modelled from the spec: the fields of a Post (section 3) that the
    search reads; the corpus store is backend code, not in the visible
    source.  [created_at] is the hour of creation. *)
Record Post : Type := {
  post_id : Z;
  created_at : Q;
  reliability_score : Q
}.

(** Modelled from the spec: the SearchWindow of section 3.  The hours
    are rationals here; the bounds the search computes are sums and
    halves of 0 and 24. *)
Record SearchWindow : Type := {
  low_hour : Q;
  high_hour : Q
}.

(** [later ⊆ earlier] as intervals. *)
Definition subwindow (later earlier : SearchWindow) : Prop :=
  (low_hour earlier <= low_hour later)%Q /\
  (high_hour later <= high_hour earlier)%Q.

(** [low_hour ≤ high_hour] *)
Definition well_formed (w : SearchWindow) : Prop :=
  (low_hour w <= high_hour w)%Q.

Section Search.

(** What the specification leaves to configuration: which posts
    match the fingerprint (overlap score above the threshold), the
    tie-break between two non-empty partitions (true when they are
    roughly balanced and the later one is denser in the volume
    series), the minimum resolution and the iteration cap. *)
Variable matches : Post -> bool.
Variable prefer_later : list Post -> list Post -> bool.
Variable resolution : Q.
Variable max_iterations : nat.
Variable corpus : list Post.

(** Modelled from the spec: step 1 of section 4.3 (backend
    [search_algorithm.py], not in the visible source): the window
    starts as [[low_hour = 0, high_hour = 24]]. *)
Definition initial : SearchWindow :=
  {| low_hour := 0; high_hour := 24 |}.

(** Modelled from the spec: step 2a, [mid = (low_hour + high_hour) / 2]. *)
Definition mid (w : SearchWindow) : Q :=
  ((low_hour w + high_hour w) / 2)%Q.

(** Modelled from the spec: step 2b, the corpus posts whose overlap
    with the fingerprint exceeds the threshold. *)
Definition matching : list Post := List.filter matches corpus.

(** Modelled from the spec: step 2 of section 4.3, one narrowing
    iteration.  The matching posts are split into those created
    before [mid] and those at or after it; if some lie before [mid]
    then [high_hour = mid], otherwise [low_hour = mid]; when both
    parts are non-empty the tie-break may prefer the later part. *)
Definition narrow (w : SearchWindow) : SearchWindow :=
  let m := mid w in
  let before :=
    List.filter (fun p => negb (Qle_bool m (created_at p))) matching in
  let after :=
    List.filter (fun p => Qle_bool m (created_at p)) matching in
  match before, after with
  | [], _ => {| low_hour := m; high_hour := high_hour w |}
  | _ :: _, [] => {| low_hour := low_hour w; high_hour := m |}
  | _ :: _, _ :: _ =>
      if prefer_later before after
      then {| low_hour := m; high_hour := high_hour w |}
      else {| low_hour := low_hour w; high_hour := m |}
  end.

(** Modelled from the spec: step 3, [high_hour - low_hour] has fallen
    below the minimum resolution. *)
Definition converged (w : SearchWindow) : bool :=
  negb (Qle_bool resolution (high_hour w - low_hour w)).

(** Modelled from the spec: step 3 of section 4.3, the loop.  It
    stops when the window has converged or the iteration cap is
    reached; the result lists the window after each iteration (the
    payloads of the [search_progress] events). *)
Fixpoint iterate (fuel : nat) (w : SearchWindow) : list SearchWindow :=
  match fuel with
  | O => []
  | S fuel' =>
      if converged w then []
      else let w' := narrow w in w' :: iterate fuel' w'
  end.

(** Modelled from the spec: the windows of a run of section 4.3, the
    initial one first.  When nothing matches the fingerprint the search
    ends at once (step 3). *)
Definition windows : list SearchWindow :=
  initial ::
  match matching with
  | [] => []
  | _ :: _ => iterate max_iterations initial
  end.

End Search.

End WindowNarrowing.

Import App.

(** ** Statements used below *)

(** An inbound event of the given type: its [type] property is that
    string. *)
Definition is_event (type : string) (m : JsVal) : Prop :=
  field m "type" = JStr type.

(** Neither [null] nor [undefined]. *)
Definition nonNullish (v : JsVal) : Prop :=
  match v with
  | JUndefined | JNull => False
  | _ => True
  end.


Definition configured_statuses : list string :=
  ["idle"; "analyzing"; "searching"; "found"].

(** Each status of the list has a badge of its own. *)
Definition badges_distinct (statuses : list string) : Prop :=
  ∀ s1 s2, s1 ∈ statuses → s2 ∈ statuses → s1 ≠ s2 →
    StatusBadge s1 ≠ StatusBadge s2.

(** The URL has a [tweet] parameter whose (first) value is [v]. *)
Definition has_tweet_param (b : Browser) (v : string) : Prop :=
  searchParams_get (location_search b) "tweet" = JStr v.

(** Opening the connection with a [tweet] parameter in the URL and the
    status [idle] clears the query string and sends the start request. *)
Definition autostarts_on (w : World) (v : string) : Prop :=
  location_search (browser (onopen w)) = [] ∧
  outbox (browser (onopen w))
    = outbox (browser w)
      ++ [getTweetsRequest; getVolumeRequest; startRequest JNull (JStr v)].

Definition autostarts_on_every_tweet_param : Prop :=
  ∀ w v,
    isConnected (app w) = false →
    status (app w) = JStr "idle" →
    has_tweet_param (browser w) v →
    autostarts_on w v.

(** ** Sample inputs *)

Definition sample_world : World :=
  {| app := initialState;
     browser := {| socketOpen := true; outbox := [];
                   location_pathname := "/"; location_search := [] |} |}.

Definition sample_status_event : JsVal :=
  JObj [("type", JStr "status"); ("status", JStr "failed")].

Definition sample_log (message : string) : JsVal :=
  JObj [("type", JStr "log"); ("level", JStr "info");
        ("message", JStr message)].

Definition sample_progress : JsVal :=
  JObj [("type", JStr "search_progress");
        ("low_hour", num 6); ("high_hour", num 12)].

Definition sample_counts : list (string * JsVal) :=
  [("retweet_count", num 2); ("like_count", num 3); ("reply_count", num 1)].

Definition sample_post_props : list (string * JsVal) :=
  [("id", JStr "t1"); ("text", JStr "origin");
   ("public_metrics", JObj sample_counts)].

Definition sample_source_found : JsVal :=
  JObj [("type", JStr "source_found");
        ("tweet", JObj sample_post_props); ("iterations", num 7)].

Definition sample_posts : list JsVal := replicate 31 (JObj sample_post_props).

Definition sample_tweets_event : JsVal :=
  JObj [("type", JStr "tweets"); ("data", JArr sample_posts)].

Definition sample_searching_state : AppState :=
  setState (SetStatus (JStr "searching")) initialState.

(** The page as a redirect with [?tweet=1234567890] leaves it, before the
    socket has opened. *)
Definition sample_redirect_world : World :=
  {| app := initialState;
     browser := {| socketOpen := false; outbox := [];
                   location_pathname := "/";
                   location_search := [("tweet", "1234567890")] |} |}.

(** The same page with [?tweet=]. *)
Definition sample_empty_param_world : World :=
  {| app := initialState;
     browser := {| socketOpen := false; outbox := [];
                   location_pathname := "/";
                   location_search := [("tweet", "")] |} |}.


(** Three matching posts at hours 2, 5 and 9. *)
Definition sample_corpus : list WindowNarrowing.Post :=
  [{| WindowNarrowing.post_id := 1; WindowNarrowing.created_at := 2;
      WindowNarrowing.reliability_score := 1 |};
   {| WindowNarrowing.post_id := 2; WindowNarrowing.created_at := 5;
      WindowNarrowing.reliability_score := 1 |};
   {| WindowNarrowing.post_id := 3; WindowNarrowing.created_at := 9;
      WindowNarrowing.reliability_score := 1 |}].

Definition sample_windows : list WindowNarrowing.SearchWindow :=
  WindowNarrowing.windows (λ _, true) (λ _ _, false) (1 # 10) 20 sample_corpus.

(** ** The rest of the hook and of the components *)

(** [ws.onclose]: [setIsConnected(false)], on a socket that is closed.
    The handler also arms the timer that calls [connect] again after
    3000 ms; what the client does next is the [onopen] of that socket. *)
Definition onclose (w : World) : World :=
  {| app := setState (SetIsConnected false) (app w);
     browser := {| socketOpen := false;
                   outbox := outbox (browser w);
                   location_pathname := location_pathname (browser w);
                   location_search := location_search (browser w) |} |}.

(** The messages that arrive in a course of events, in order. *)
Fixpoint arrivals (schedule : list Step) : list JsVal :=
  match schedule with
  | [] => []
  | Arrives data :: rest => data :: arrivals rest
  | Renders :: rest => arrivals rest
  end.

(** The message waiting for the effect, if any. *)
Definition pendingOf (c : Client) : option JsVal :=
  if effectPending c then Some (lastMessage c) else None.

(** The messages the effect gets to see: at each render the one that
    arrived last since the render before, if any arrived. *)
Fixpoint processed (schedule : list Step) (pending : option JsVal)
    : list JsVal :=
  match schedule with
  | [] => []
  | Arrives data :: rest => processed rest (Some data)
  | Renders :: rest =>
      match pending with
      | Some data => data :: processed rest None
      | None => processed rest None
      end
  end.

(** [handleStartAnalysis] puts every piece of state that a run changes
    back to its initial value. *)
Definition restart_discards_all_run_state : Prop :=
  ∀ url tweetId w,
    let s := app (run (handleStartAnalysis url tweetId) w) in
    status s = status initialState ∧
    logs s = logs initialState ∧
    keywords s = keywords initialState ∧
    bigrams s = bigrams initialState ∧
    searchWindow s = searchWindow initialState ∧
    sourceTweet s = sourceTweet initialState ∧
    iterations s = iterations initialState ∧
    isNLPLoading s = isNLPLoading initialState.

(** Every log event that arrives is appended to the log. *)
Definition every_arriving_log_event_is_appended : Prop :=
  ∀ schedule w,
    Forall (is_event "log") (arrivals schedule) →
    logs (app (world (play (schedule ++ [Renders]) (settled w))))
      = logs (app w) ++ arrivals schedule.

(** The messages a list of commands hands to [sendMessage], in order. *)
Fixpoint messagesOf (cmds : list Cmd) : list JsVal :=
  match cmds with
  | [] => []
  | SendMessage message :: rest => message :: messagesOf rest
  | _ :: rest => messagesOf rest
  end.

(** The event types whose [case] calls a setter. *)
Definition state_event_types : list string :=
  ["status"; "log"; "volume"; "nlp_result"; "search_progress";
   "source_found"; "tweets"].

(** [v.length === 0] for a [v] that is not [null] or [undefined] (the
    components test [!v] first).  An array and a string have their
    length; a parsed object has the [length] it owns; a number or a
    boolean has none. *)
Definition lengthIsZero (v : JsVal) : bool :=
  match v with
  | JArr elems => match elems with [] => true | _ :: _ => false end
  | JStr s => String.eqb s ""
  | JObj _ =>
      match field v "length" with
      | JNum q => (Qnum q =? 0)%Z
      | _ => false
      end
  | _ => false
  end.

(** *** [KeywordCard] *)

(** The child [{bigrams && bigrams.length > 0 && (...)}]: the value at
    which the chain stops short, or the bigrams that are mapped to
    chips. *)
Inductive BigramsSlot : Type :=
| SlotValue (v : JsVal)
| SlotChips (shown : list JsVal).

Inductive KeywordView : Type :=
| KeywordsLoading
| KeywordsWaiting
| KeywordList (pills : list JsVal) (slot : BigramsSlot).

Section KeywordCard.

(** [x > 0] for an [x] that is a string, an array or an object: the
    comparison converts it to a number first, which is the business of
    the JavaScript runtime; [None] is the TypeError of a conversion that
    fails. *)
Variable convertedIsPositive : JsVal → option bool.

(** [v.length > 0] for a truthy [v]. *)
Definition lengthIsPositive (v : JsVal) : option bool :=
  match v with
  | JArr elems => Some (match elems with [] => false | _ :: _ => true end)
  | JStr s => Some (negb (String.eqb s ""))
  | JObj _ =>
      match field v "length" with
      | JUndefined | JNull => Some false
      | JBool b => Some b
      | JNum q => Some (0 <? Qnum q)%Z
      | x => convertedIsPositive x
      end
  | _ => Some false
  end.

(** Only an array has [slice] and a result with [map]; on anything else
    the call throws. *)
Definition bigramsSlot (bigrams : JsVal) : option BigramsSlot :=
  if negb (truthy bigrams) then Some (SlotValue bigrams)
  else
    positive ← lengthIsPositive bigrams;
    if negb positive then Some (SlotValue (JBool false))
    else
      match bigrams with
      | JArr elems => Some (SlotChips (take 3 elems))
      | _ => None
      end.

(** The element [KeywordCard] returns; [None] when it throws.  Only an
    array has [map]. *)
Definition KeywordCard (keywords bigrams : JsVal) (isLoading : bool)
    : option KeywordView :=
  if isLoading then Some KeywordsLoading
  else if negb (truthy keywords) || lengthIsZero keywords
  then Some KeywordsWaiting
  else
    match keywords with
    | JArr pills => slot ← bigramsSlot bigrams; Some (KeywordList pills slot)
    | _ => None
    end.

(** [<KeywordCard keywords={keywords} bigrams={bigrams}
    isLoading={isNLPLoading} />] *)
Definition App_keywordCard (s : AppState) : option KeywordView :=
  KeywordCard (keywords s) (bigrams s) (isNLPLoading s).

End KeywordCard.

(** *** [TweetCard] *)

(** Converting a value to a string or a number (a template literal,
    [new Date(v)], [v / 1000]) throws a TypeError exactly when the
    conversion meets a parsed object that owns a [toString] property:
    that property is no function, and the inherited [valueOf] returns
    the object itself.  An array is converted through its elements,
    except those that are [null]. *)
Fixpoint conversionThrows (v : JsVal) : bool :=
  match v with
  | JObj props =>
      match own props "toString" with
      | Some _ => true
      | None => false
      end
  | JArr elems => existsb conversionThrows elems
  | _ => false
  end.

(** [media[0].duration_ms] for a [media] whose [length > 0] holds: the
    first element of an array, the first character of a string (which
    has no such property), the property [0] of an object.  Reading a
    property of [null] or [undefined] throws. *)
Definition firstDuration (media : JsVal) : option JsVal :=
  match media with
  | JArr (first :: _) => member first "duration_ms"
  | JStr _ => Some JUndefined
  | JObj _ => member (field media "0") "duration_ms"
  | _ => None
  end.

(** The child [{tweet.media && tweet.media.length > 0 && (...)}]: the
    value at which the chain stops short, or the badge with the operand
    of [Math.floor(... / 1000)]. *)
Inductive MediaSlot : Type :=
| MediaValue (v : JsVal)
| MediaBadge (duration_ms : JsVal).

(** The element a card is made of, as far as it depends on the tweet. *)
Record TweetCardView : Type := {
  view_avatarSeed : JsVal;
  view_name : JsVal;
  view_username : JsVal;
  view_created_at : JsVal;
  view_text : JsVal;
  view_media : MediaSlot;
  view_metrics : Metrics;
  view_isSource : bool
}.

Section TweetCard.

Variable convertedIsPositive : JsVal → option bool.

Definition TweetCard_media (tweet : JsVal) : option MediaSlot :=
  let media := field tweet "media" in
  if negb (truthy media) then Some (MediaValue media)
  else
    positive ← lengthIsPositive convertedIsPositive media;
    if negb positive then Some (MediaValue (JBool false))
    else
      duration ← firstDuration media;
      let duration_ms := orElse duration (num 45000) in
      if conversionThrows duration_ms then None
      else Some (MediaBadge duration_ms).

(** The three expressions [tweet.public_metrics?.x_count || 0]. *)
Definition TweetCard_counts (tweet : JsVal) : Metrics :=
  let public_metrics := field tweet "public_metrics" in
  {| shown_retweets :=
       orElse (optMember public_metrics "retweet_count") (num 0);
     shown_likes :=
       orElse (optMember public_metrics "like_count") (num 0);
     shown_replies :=
       orElse (optMember public_metrics "reply_count") (num 0) |}.

(** The element [TweetCard] returns, its expressions taken in the order
    of the source; [None] when one of them throws: [tweet.author] on a
    tweet that is [null] or [undefined], the avatar URL's template
    literal, [new Date(tweet.created_at)] in [formatTime], the media
    badge.  The counts come last. *)
Definition TweetCard (tweet isSourceArg : JsVal) : option TweetCardView :=
  let isSource := defaultParam (JBool false) isSourceArg in
  author ← member tweet "author";
  let avatarSeed := orElse (optMember author "username") (JStr "default") in
  if conversionThrows avatarSeed then None
  else if conversionThrows (field tweet "created_at") then None
  else
    media ← TweetCard_media tweet;
    Some {| view_avatarSeed := avatarSeed;
            view_name := orElse (optMember author "name") (JStr "Ù…Ø³ØªØ®Ø¯Ù…");
            view_username := orElse (optMember author "username") (JStr "@user");
            view_created_at := field tweet "created_at";
            view_text := field tweet "text";
            view_media := media;
            view_metrics := TweetCard_counts tweet;
            view_isSource := truthy isSource |}.


End TweetCard.



(** *** [TimelineChart] *)

(** The chart with the operands [lowHour] and [highHour] of the
    [ReferenceArea], when the area is drawn. *)
Inductive ChartView : Type :=
| ChartLoading
| Chart (data : JsVal) (area : option (JsVal * JsVal)).

(** [searchWindow] is the object of the state, so [searchWindow?.x] is
    [searchWindow.x]. *)
Definition TimelineChart (data : JsVal) (searchWindow : SearchWindow)
    (status : JsVal) : ChartView :=
  if negb (truthy data) || lengthIsZero data then ChartLoading
  else
    let lowHour := orElse (low_hour searchWindow) (num 0) in
    let highHour := orElse (high_hour searchWindow) (num 24) in
    Chart data
      (if strictEqStr status "searching" || strictEqStr status "found"
       then Some (lowHour, highHour) else None).


(** [<TimelineChart data={volumeData} searchWindow={searchWindow}
    status={status} />] *)
Definition App_timelineChart (s : AppState) : ChartView :=
  TimelineChart (volumeData s) (searchWindow s) (status s).

(** ** More sample inputs *)

Definition sample_nlp_result : JsVal :=
  JObj [("type", JStr "nlp_result");
        ("keywords", JArr [JStr "k1"; JStr "k2"]);
        ("bigrams", JArr [JStr "b1"; JStr "b2"; JStr "b3"; JStr "b4"])].

Definition sample_analyzing_event : JsVal :=
  JObj [("type", JStr "status"); ("status", JStr "analyzing")].

Definition sample_complete_event : JsVal :=
  JObj [("type", JStr "analysis_complete")].

Definition sample_volume_event : JsVal :=
  JObj [("type", JStr "volume");
        ("data", JArr [JObj [("hour", num 0); ("count", num 3)]])].

(** The idle client, connected, before it has sent anything. *)
Definition sample_connected_world : World :=
  {| app := setState (SetIsConnected true) initialState;
     browser := {| socketOpen := true; outbox := [];
                   location_pathname := "/"; location_search := [] |} |}.

(** A post that the engine has flagged as the source, and its card
    while the search is still running. *)
Definition sample_flagged_post : JsVal :=
  JObj [("id", JStr "t1"); ("is_source", JBool true)].

Definition sample_flagged_card : FeedCard :=
  {| card_key := JStr "t1";
     card_tweet := sample_flagged_post;
     card_isSource := JBool false |}.

(** The badge of a status that names a built-in member of objects. *)
Definition builtInBadge : Badge :=
  {| dotClass := "status-dot undefined"; labelText := "" |}.

(** Thirty posts and a [null] behind them. *)
Definition sample_posts_then_null : list JsVal :=
  replicate 30 (JObj sample_post_props) ++ [JNull].

Definition sample_tweets_then_null_event : JsVal :=
  JObj [("type", JStr "tweets"); ("data", JArr sample_posts_then_null)].


(** A post whose media list starts with [null]. *)
Definition sample_null_media_post : JsVal :=
  JObj [("id", JStr "t2"); ("media", JArr [JNull]);
        ("public_metrics", JObj sample_counts)].

(** The page at [?tweet=&tweet=5]. *)
Definition sample_second_param_world : World :=
  {| app := initialState;
     browser := {| socketOpen := false; outbox := [];
                   location_pathname := "/";
                   location_search := [("tweet", ""); ("tweet", "5")] |} |}.

(** The connected client at the end of a run that found its source. *)
Definition sample_found_world : World :=
  deliver (JObj [("type", JStr "status"); ("status", JStr "found")])
    (deliver sample_source_found
       (deliver sample_analyzing_event sample_connected_world)).

(** A client that has lost its connection in the middle of a search,
    on the page it was redirected to. *)
Definition sample_reconnecting_world : World :=
  {| app := sample_searching_state;
     browser := {| socketOpen := false; outbox := [];
                   location_pathname := "/";
                   location_search := [("tweet", "1234567890")] |} |}.

(** ** Properties of the client *)

(** *** Events and the commands they issue *)

Lemma is_event_object type m : is_event type m → ∃ props, m = JObj props.
Proof.
  unfold is_event. destruct m; simpl; try discriminate. eauto.
Qed.

Lemma is_event_truthy type m : is_event type m → truthy m = true.
Proof. intros [props ->]%is_event_object. reflexivity. Qed.

(** Reduce [handleMessage m] for an event whose type is known. *)
Ltac event_commands H :=
  unfold handleMessage;
  rewrite (is_event_truthy _ _ H);
  unfold is_event in H; rewrite H; cbn [negb strictEqStr String.eqb Ascii.eqb Bool.eqb].

Lemma handleMessage_status m :
  is_event "status" m →
  handleMessage m
    = SetStatus (field m "status")
        :: (if strictEqStr (field m "status") "analyzing"
            then [SetIsNLPLoading true] else []).
Proof. intros H. event_commands H. reflexivity. Qed.

Lemma handleMessage_log m :
  is_event "log" m → handleMessage m = [SetLogs (λ prev, prev ++ [m])].
Proof. intros H. event_commands H. reflexivity. Qed.

Lemma handleMessage_search_progress m :
  is_event "search_progress" m →
  handleMessage m
    = [SetSearchWindow {| low_hour := field m "low_hour";
                          high_hour := field m "high_hour" |}].
Proof. intros H. event_commands H. reflexivity. Qed.

Lemma handleMessage_source_found m :
  is_event "source_found" m →
  handleMessage m
    = [SetSourceTweet (field m "tweet"); SetIterations (field m "iterations")].
Proof. intros H. event_commands H. reflexivity. Qed.

Lemma handleMessage_tweets m :
  is_event "tweets" m → handleMessage m = [SetTweets (field m "data")].
Proof. intros H. event_commands H. reflexivity. Qed.

(** *** The log sequence *)

(** Whatever the event, the log sequence is kept or grows by the event
    itself at its end. *)
Lemma deliver_logs m w :
  logs (app (deliver m w)) = logs (app w) ∨
  logs (app (deliver m w)) = logs (app w) ++ [m].
Proof.
  unfold deliver, handleMessage.
  repeat case_match; simpl; auto.
Qed.

Lemma deliver_logs_prefix m w :
  logs (app w) `prefix_of` logs (app (deliver m w)).
Proof.
  destruct (deliver_logs m w) as [-> | ->]; [done | by apply prefix_app_r].
Qed.

Lemma deliver_log m w :
  is_event "log" m → logs (app (deliver m w)) = logs (app w) ++ [m].
Proof.
  intros H. unfold deliver. rewrite (handleMessage_log _ H). reflexivity.
Qed.

Lemma render_onmessage m c :
  render (onmessage m c)
    = {| world := deliver m (world c); lastMessage := m;
         effectPending := false |}.
Proof. reflexivity. Qed.

Lemma renderEach_world events :
  ∀ c, world (fold_left (λ c' e, render (onmessage e c')) events c)
       = fold_left (λ w e, deliver e w) events (world c).
Proof.
  induction events as [|m events IH]; intros c; [reflexivity |].
  simpl. rewrite IH. reflexivity.
Qed.

Lemma deliverAll_cons m events w :
  deliverAll (m :: events) w = deliverAll events (deliver m w).
Proof. unfold deliverAll. by rewrite !renderEach_world. Qed.

Lemma deliverAll_nil w : deliverAll [] w = w.
Proof. reflexivity. Qed.

(** The world after a course of events is the world after the effect
    has run on the processed messages, one after the other. *)
Lemma play_world schedule :
  ∀ c, world (play schedule c)
       = deliverAll (processed schedule (pendingOf c)) (world c).
Proof.
  induction schedule as [|s schedule IH]; intros [w lm pending];
    [reflexivity |].
  change (play (s :: schedule) {| world := w; lastMessage := lm;
                                  effectPending := pending |})
    with (play schedule (step {| world := w; lastMessage := lm;
                                 effectPending := pending |} s)).
  rewrite IH. destruct s as [data |]; [reflexivity |].
  destruct pending; cbn [step render effectPending lastMessage world pendingOf
                         processed].
  - by rewrite deliverAll_cons.
  - reflexivity.
Qed.

(** C5: the code at its failing input.  Two log events that arrive
    before React renders share the one [lastMessage] slot: the effect
    sees only the second, so the log gains one entry, not two, and the
    first event is never shown.  With a render after each arrival both
    are appended, in order. *)
Theorem log_events_sharing_a_render_leave_one (a b : JsVal) (w : World) :
  is_event "log" a →
  is_event "log" b →
  logs (app (world (play [Arrives a; Arrives b; Renders] (settled w))))
    = logs (app w) ++ [b] ∧
  logs (app (world (play [Arrives a; Renders; Arrives b; Renders]
                      (settled w))))
    = logs (app w) ++ [a; b] ∧
  ¬ every_arriving_log_event_is_appended.
Proof.
  intros Ha Hb.
  split; [| split].
  - change (logs (app (deliver b w)) = logs (app w) ++ [b]).
    by apply deliver_log.
  - change (logs (app (deliver b (deliver a w))) = logs (app w) ++ [a; b]).
    rewrite (deliver_log _ _ Hb), (deliver_log _ _ Ha).
    by rewrite <- app_assoc.
  - intros Hall.
    assert (Forall (is_event "log") (arrivals [Arrives a; Arrives b]))
      as Hlogs by (by repeat constructor).
    specialize (Hall [Arrives a; Arrives b] w Hlogs).
    change (logs (app (deliver b w)) = logs (app w) ++ [a; b])
      in Hall.
    rewrite (deliver_log _ _ Hb) in Hall.
    apply app_inv_head in Hall. discriminate.
Qed.

(** Two log events in one render, on the initial client. *)
Lemma log_events_sharing_a_render_leave_one_witness :
  is_event "log" (sample_log "a") ∧
  is_event "log" (sample_log "b") ∧
  logs (app (world (play [Arrives (sample_log "a"); Arrives (sample_log "b");
                          Renders] (settled sample_world))))
    = [sample_log "b"].
Proof.
  split; [reflexivity |]. split; [reflexivity |].
  apply (log_events_sharing_a_render_leave_one (sample_log "a")
           (sample_log "b") sample_world); reflexivity.
Defined.

(** *** The search window *)

(** C4: an event of type [search_progress] sets the search window to the
    event's [low_hour] and [high_hour] and leaves every other piece of
    client state, and the outgoing messages, as they were. *)
Theorem search_progress_sets_window_only (m : JsVal) (w : World) :
  is_event "search_progress" m →
  searchWindow (app (deliver m w))
    = {| low_hour := field m "low_hour"; high_hour := field m "high_hour" |} ∧
  status (app (deliver m w)) = status (app w) ∧
  logs (app (deliver m w)) = logs (app w) ∧
  keywords (app (deliver m w)) = keywords (app w) ∧
  bigrams (app (deliver m w)) = bigrams (app w) ∧
  volumeData (app (deliver m w)) = volumeData (app w) ∧
  sourceTweet (app (deliver m w)) = sourceTweet (app w) ∧
  iterations (app (deliver m w)) = iterations (app w) ∧
  tweets (app (deliver m w)) = tweets (app w) ∧
  isNLPLoading (app (deliver m w)) = isNLPLoading (app w) ∧
  isConnected (app (deliver m w)) = isConnected (app w) ∧
  browser (deliver m w) = browser w.
Proof.
  intros H. unfold deliver.
  rewrite (handleMessage_search_progress _ H). simpl.
  repeat split.
Qed.

(** A progress event with the window [6, 12]. *)
Lemma search_progress_sets_window_only_witness :
  is_event "search_progress" sample_progress ∧
  searchWindow (app (deliver sample_progress sample_world))
    = {| low_hour := num 6; high_hour := num 12 |}.
Proof.
  split; [reflexivity |].
  apply (search_progress_sets_window_only sample_progress sample_world).
  reflexivity.
Defined.

(** *** The source candidate *)

(** C7: an event of type [source_found] sets the source tweet to the
    event's [tweet] and the iteration count to the event's [iterations];
    these are the values handed to [SourceResult], which shows them as
    soon as the tweet is not falsy. *)
Theorem source_found_sets_candidate (m : JsVal) (w : World) :
  is_event "source_found" m →
  sourceTweet (app (deliver m w)) = field m "tweet" ∧
  iterations (app (deliver m w)) = field m "iterations" ∧
  App_sourceResult (app (deliver m w))
    = SourceResult (field m "tweet") (field m "iterations") ∧
  (truthy (field m "tweet") = true →
   App_sourceResult (app (deliver m w))
     = SourceCard (field m "tweet") (field m "iterations")).
Proof.
  intros H. unfold deliver, App_sourceResult.
  rewrite (handleMessage_source_found _ H). simpl.
  repeat split.
  intros Htweet. unfold SourceResult. by rewrite Htweet.
Qed.

(** A source found after 7 iterations. *)
Lemma source_found_sets_candidate_witness :
  is_event "source_found" sample_source_found ∧
  sourceTweet (app (deliver sample_source_found sample_world))
    = JObj sample_post_props ∧
  iterations (app (deliver sample_source_found sample_world)) = num 7.
Proof.
  split; [reflexivity |].
  split;
    apply (source_found_sets_candidate sample_source_found sample_world);
    reflexivity.
Defined.

(** *** The status badge *)

Lemma statusConfig_lookup_other s :
  s ∉ configured_statuses → statusConfig !! s = None.
Proof.
  intros Hs. unfold statusConfig. simpl.
  rewrite !lookup_insert_ne; [apply lookup_empty | ..];
    intros <-; apply Hs; unfold configured_statuses; set_solver.
Qed.

Lemma StatusBadge_fallback s :
  s ∉ configured_statuses → s ∉ objectPrototypeMembers →
  StatusBadge s = StatusBadge "idle".
Proof.
  intros Hs Hproto. unfold StatusBadge.
  assert (statusConfig_at s = Undefined) as ->; [| reflexivity].
  unfold statusConfig_at.
  rewrite (statusConfig_lookup_other _ Hs).
  by rewrite bool_decide_eq_false_2.
Qed.

Lemma badges_distinct_configured : badges_distinct configured_statuses.
Proof.
  intros s1 s2 H1 H2 Hne. unfold configured_statuses in *.
  set_unfold. destruct_or!; subst; try done;
    intros Heq; vm_compute in Heq; discriminate.
Qed.

Lemma deliver_status m w :
  is_event "status" m → status (app (deliver m w)) = field m "status".
Proof.
  intros H. unfold deliver. rewrite (handleMessage_status _ H).
  by destruct (strictEqStr (field m "status") "analyzing").
Qed.




(** *** Starting an analysis *)

Lemma handleStartAnalysis_frame url tweetId w :
  let w' := run (handleStartAnalysis url tweetId) w in
  status (app w') = status (app w) ∧
  volumeData (app w') = volumeData (app w) ∧
  tweets (app w') = tweets (app w) ∧
  isNLPLoading (app w') = isNLPLoading (app w) ∧
  isConnected (app w') = isConnected (app w).
Proof. simpl. repeat split. Qed.

Lemma run_open_socket cmds :
  ∀ w, socketOpen (browser w) = true →
       outbox (browser (run cmds w)) = outbox (browser w) ++ messagesOf cmds ∧
       socketOpen (browser (run cmds w)) = true.
Proof.
  induction cmds as [|c cmds IH]; intros w Hopen.
  { simpl. by rewrite app_nil_r. }
  change (run (c :: cmds) w) with (run cmds (exec w c)).
  assert (socketOpen (browser (exec w c)) = true) as Hc.
  { destruct c; simpl; try done. unfold sendMessage. by rewrite Hopen. }
  destruct (IH _ Hc) as [IHo IHc]. split; [| exact IHc].
  rewrite IHo. destruct c; simpl; try reflexivity.
  unfold sendMessage. rewrite Hopen. simpl. by rewrite <- app_assoc.
Qed.

Lemma run_closed_socket cmds :
  ∀ w, socketOpen (browser w) = false →
       outbox (browser (run cmds w)) = outbox (browser w) ∧
       socketOpen (browser (run cmds w)) = false.
Proof.
  induction cmds as [|c cmds IH]; intros w Hclosed; [done |].
  change (run (c :: cmds) w) with (run cmds (exec w c)).
  assert (socketOpen (browser (exec w c)) = false ∧
          outbox (browser (exec w c)) = outbox (browser w)) as [Hc Ho].
  { destruct c; simpl; try done. unfold sendMessage. by rewrite Hclosed. }
  destruct (IH _ Hc) as [IHo IHc]. by rewrite IHo, Ho.
Qed.

(** C2, as stated, fails: the handler resets six fields and no more.
    After a run that has found its source the status is still [found]
    and the spinner flag still set when the new request goes out. *)
Lemma restart_keeps_status_and_spinner :
  status (app (run (handleStartAnalysis (JStr "u") JUndefined)
                 sample_found_world)) = JStr "found" ∧
  isNLPLoading (app (run (handleStartAnalysis (JStr "u") JUndefined)
                       sample_found_world)) = true ∧
  ¬ restart_discards_all_run_state.
Proof.
  split; [reflexivity |]. split; [reflexivity |].
  intros Hall.
  destruct (Hall (JStr "u") JUndefined sample_found_world) as [Hstatus _].
  vm_compute in Hstatus. discriminate.
Qed.

(** C2, amended: [handleStartAnalysis] empties the logs, the keywords
    and the bigrams, clears the source tweet and sets the iteration
    count to 0 and the search window to [0, 24], all before it sends the
    [start_analysis] request, which over an open socket is the one
    message that goes out; the status, the spinner flag, the volume
    data, the tweets and the connection flag are left as they were. *)
Theorem start_resets_six_fields_and_keeps_the_rest
    (url tweetId : JsVal) (w : World) :
  ∃ resets,
    handleStartAnalysis url tweetId
      = resets
        ++ [SendMessage (startRequest url (defaultParam JNull tweetId))] ∧
    Forall (λ c, ∀ message, c ≠ SendMessage message) resets ∧
    browser (run resets w) = browser w ∧
    logs (app (run resets w)) = [] ∧
    keywords (app (run resets w)) = JArr [] ∧
    bigrams (app (run resets w)) = JArr [] ∧
    sourceTweet (app (run resets w)) = JNull ∧
    iterations (app (run resets w)) = num 0 ∧
    searchWindow (app (run resets w))
      = {| low_hour := num 0; high_hour := num 24 |} ∧
    app (run (handleStartAnalysis url tweetId) w) = app (run resets w) ∧
    status (app (run resets w)) = status (app w) ∧
    isNLPLoading (app (run resets w)) = isNLPLoading (app w) ∧
    volumeData (app (run resets w)) = volumeData (app w) ∧
    tweets (app (run resets w)) = tweets (app w) ∧
    isConnected (app (run resets w)) = isConnected (app w) ∧
    (socketOpen (browser w) = true →
     outbox (browser (run (handleStartAnalysis url tweetId) w))
       = outbox (browser w)
         ++ [startRequest url (defaultParam JNull tweetId)]).
Proof.
  exists [SetLogs (λ _, []); SetKeywords (JArr []); SetBigrams (JArr []);
          SetSourceTweet JNull; SetIterations (num 0);
          SetSearchWindow {| low_hour := num 0; high_hour := num 24 |}].
  split; [reflexivity |].
  split; [repeat constructor; discriminate |].
  repeat (split; [reflexivity |]).
  intros Hopen.
  exact (proj1 (run_open_socket (handleStartAnalysis url tweetId) w Hopen)).
Qed.

(** *** The report form *)

(** With the button enabled the form starts an analysis of the URL in
    its input. *)
Lemma enabled_form_starts_analysis s url :
  ReportForm_isDisabled s = false →
  App_submitForm s url = handleStartAnalysis (JStr url) JUndefined.
Proof.
  intros H. unfold App_submitForm, ReportForm_submit. by rewrite H.
Qed.

(** The form is enabled again once a run has ended, whatever its result. *)
Lemma form_enabled_after_run s v :
  isConnected s = true → status s = JStr v →
  v ≠ "analyzing" → v ≠ "searching" →
  ReportForm_isDisabled s = false.
Proof.
  intros Hconn Hstatus Ha Hs.
  unfold ReportForm_isDisabled, isAnalyzing. rewrite Hconn, Hstatus. simpl.
  destruct (String.eqb_spec v "analyzing"); [contradiction |].
  destruct (String.eqb_spec v "searching"); [contradiction |].
  reflexivity.
Qed.

(** Cancelling first makes the coordinator accept the start request. *)
Lemma start_after_cancel s :
  s = SessionCoordinator.analyzing ∨ s = SessionCoordinator.searching →
  SessionCoordinator.start (SessionCoordinator.cancel s)
    = (SessionCoordinator.analyzing, None).
Proof. by intros [-> | ->]. Qed.

(** C6: the coordinator rejects a start request in every state but
    [idle] with [BusySessionError]; in the client, while the status is
    [analyzing] or [searching], or the socket is not connected, the
    submit button is disabled and the form issues no request. *)
Theorem busy_session_rejects_and_form_disabled
    (s : SessionCoordinator.Status) (st : AppState) (url : string) :
  s ≠ SessionCoordinator.idle →
  status st = JStr "analyzing" ∨ status st = JStr "searching" ∨
    isConnected st = false →
  SessionCoordinator.start s = (s, Some SessionCoordinator.BusySessionError) ∧
  ReportForm_button_disabled (ReportForm_isDisabled st) = true ∧
  App_submitForm st url = [].
Proof.
  intros Hbusy Hstate.
  split; [by destruct s |].
  assert (ReportForm_isDisabled st = true) as Hdisabled.
  { unfold ReportForm_isDisabled, isAnalyzing.
    destruct Hstate as [-> | [-> | ->]]; simpl;
      [reflexivity | reflexivity | apply orb_true_r]. }
  split.
  - exact Hdisabled.
  - unfold App_submitForm, ReportForm_submit. by rewrite Hdisabled.
Qed.

(** A searching session and a client that shows it. *)
Lemma busy_session_rejects_and_form_disabled_witness :
  SessionCoordinator.searching ≠ SessionCoordinator.idle ∧
  status sample_searching_state = JStr "searching" ∧
  App_submitForm sample_searching_state "https://x.com/u/status/1" = [].
Proof.
  split; [discriminate |]. split; [reflexivity |].
  apply (busy_session_rejects_and_form_disabled
           SessionCoordinator.searching sample_searching_state
           "https://x.com/u/status/1").
  - discriminate.
  - right; left; reflexivity.
Defined.

(** *** Engagement counts *)





(** A post whose media list starts with [null] has no card: the render
    throws on [tweet.media[0].duration_ms] before it gets to the
    counts. *)
Lemma null_media_entry_throws :
  TweetCard (λ _, None) sample_null_media_post JUndefined = None.
Proof. reflexivity. Qed.




(** *** The tweet feed *)

Lemma feedCards_tweets status posts :
  ∀ i cards, feedCards status i posts = Some cards →
             List.map card_tweet cards = posts.
Proof.
  induction posts as [|tweet rest IH]; intros i cards Hcards; simpl in Hcards.
  - by inversion Hcards.
  - destruct (feedCard status i tweet) as [card|] eqn:Hcard; [| discriminate].
    destruct (feedCards status (S i) rest) as [cards'|] eqn:Hrest;
      [| discriminate].
    simpl in Hcards. inversion Hcards; subst. simpl.
    f_equal; [| by eapply IH].
    unfold feedCard in Hcard.
    destruct (member tweet "id"); [| discriminate].
    destruct (member tweet "is_source"); [| discriminate].
    simpl in Hcard. by inversion Hcard.
Qed.

Lemma feedCard_total status i tweet :
  nonNullish tweet → is_Some (feedCard status i tweet).
Proof. destruct tweet; simpl; try done; intros _; eexists; reflexivity. Qed.

Lemma feedCards_total status posts :
  Forall nonNullish posts → ∀ i, is_Some (feedCards status i posts).
Proof.
  induction 1 as [|tweet rest Htweet _ IH]; intros i; simpl.
  - by eexists.
  - destruct (feedCard_total status i tweet Htweet) as [card ->].
    destruct (IH (S i)) as [cards ->]. by eexists.
Qed.

Lemma TweetFeed_at_most_30 tweets status cards :
  TweetFeed tweets status = Some cards →
  ∃ posts, tweets = JArr posts ∧ List.map card_tweet cards = take 30 posts.
Proof.
  destruct tweets; simpl; try discriminate.
  intros H. eexists. split; [reflexivity |]. by eapply feedCards_tweets.
Qed.

Lemma connectEffect_requests_tweets s b :
  isConnected s = true →
  ∃ rest, connectEffect s b = SendMessage getTweetsRequest :: rest.
Proof. intros H. unfold connectEffect. rewrite H. simpl. eauto. Qed.

(** When the connection opens, the requests for the tweets and for the
    volume are the first two messages that go out. *)
Lemma onopen_requests_tweets w :
  isConnected (app w) = false →
  ∃ rest,
    outbox (browser (onopen w))
      = outbox (browser w) ++ getTweetsRequest :: getVolumeRequest :: rest.
Proof.
  intros Hclosed. unfold onopen. rewrite Hclosed.
  match goal with
  | |- context [run ?cmds ?w1] =>
      destruct (run_open_socket cmds w1 eq_refl) as [-> _]
  end.
  unfold connectEffect.
  cbn [app browser setState isConnected outbox].
  eexists. reflexivity.
Qed.

(** C9: on connecting the client asks for 50 posts, and the request
    goes out.  Of the list that a [tweets] event carries, the feed shows
    the posts at index 0 to 29, in order, and none from index 30 on,
    whatever the list holds there; the cards are there whenever none of
    the first 30 entries is [null]. *)
Theorem feed_shows_first_30 (m : JsVal) (w : World) (posts : list JsVal) :
  is_event "tweets" m →
  field m "data" = JArr posts →
  tweets (app (deliver m w)) = JArr posts ∧
  (∀ cards,
     TweetFeed (tweets (app (deliver m w))) (status (app (deliver m w)))
       = Some cards →
     List.map card_tweet cards = take 30 posts ∧
     length cards = min 30 (length posts) ∧
     (∀ (i : nat) card, cards !! i = Some card →
                (i < 30)%nat ∧ posts !! i = Some (card_tweet card)) ∧
     (∀ i : nat, (30 ≤ i)%nat → cards !! i = None)) ∧
  (Forall nonNullish (take 30 posts) →
   is_Some (TweetFeed (tweets (app (deliver m w)))
              (status (app (deliver m w))))) ∧
  field getTweetsRequest "action" = JStr "get_tweets" ∧
  field getTweetsRequest "limit" = num 50 ∧
  (∀ w0, isConnected (app w0) = false →
         ∃ rest,
           outbox (browser (onopen w0))
             = outbox (browser w0)
               ++ getTweetsRequest :: getVolumeRequest :: rest).
Proof.
  intros Hm Hdata.
  assert (tweets (app (deliver m w)) = JArr posts) as Htweets.
  { unfold deliver. rewrite (handleMessage_tweets _ Hm). simpl. exact Hdata. }
  split; [exact Htweets |].
  rewrite Htweets.
  split; [| split; [| split; [reflexivity | split;
                                 [reflexivity | apply onopen_requests_tweets]]]].
  - intros cards Hcards. simpl in Hcards.
    pose proof (feedCards_tweets _ _ _ _ Hcards) as Hmap.
    assert (length cards = min 30 (length posts)) as Hlen.
    { rewrite <- (length_take posts 30), <- Hmap. by rewrite length_map. }
    split; [exact Hmap |]. split; [exact Hlen |]. split.
    + intros i card Hi.
      assert (i < 30)%nat as Hlt.
      { apply lookup_lt_Some in Hi. lia. }
      split; [exact Hlt |].
      assert (take 30 posts !! i = Some (card_tweet card)) as Hti.
      { rewrite <- Hmap.
        change (List.map card_tweet cards) with (card_tweet <$> cards).
        by rewrite list_lookup_fmap, Hi. }
      by rewrite lookup_take_lt in Hti.
    + intros i Hi. apply lookup_ge_None. lia.
  - intros Hshown. simpl. by apply feedCards_total.
Qed.

(** Thirty posts and a [null] at index 30: the feed has its 30 cards. *)
Lemma feed_shows_first_30_witness :
  is_event "tweets" sample_tweets_then_null_event ∧
  field sample_tweets_then_null_event "data" = JArr sample_posts_then_null ∧
  Forall nonNullish (take 30 sample_posts_then_null) ∧
  is_Some (TweetFeed
             (tweets (app (deliver sample_tweets_then_null_event
                             sample_world)))
             (status (app (deliver sample_tweets_then_null_event
                             sample_world)))).
Proof.
  assert (Forall nonNullish (take 30 sample_posts_then_null)) as Hshown
    by (vm_compute; repeat constructor).
  split; [reflexivity |]. split; [reflexivity |]. split; [exact Hshown |].
  by apply (feed_shows_first_30 sample_tweets_then_null_event sample_world
              sample_posts_then_null eq_refl eq_refl).
Defined.

(** *** Auto-start on connect *)

Lemma truthy_nonempty v : v ≠ "" → truthy (JStr v) = true.
Proof.
  intros Hv. simpl. destruct (String.eqb_spec v ""); [contradiction | reflexivity].
Qed.

(** C10, as stated, fails: with [?tweet=] in the URL the parameter is
    there but its value is the empty string, which is falsy; the query
    string stays and no start request is sent. *)
Lemma empty_tweet_param_does_not_autostart :
  ¬ autostarts_on_every_tweet_param.
Proof.
  intros Hclaim.
  destruct (Hclaim sample_empty_param_world "" eq_refl eq_refl eq_refl)
    as [Hsearch _].
  vm_compute in Hsearch. discriminate.
Qed.

(** [params.get('tweet')] is the value of the first [tweet] parameter:
    at [?tweet=&tweet=5] it is empty, and nothing is started. *)
Lemma second_tweet_param_is_not_read :
  has_tweet_param (browser sample_second_param_world) "" ∧
  outbox (browser (onopen sample_second_param_world))
    = [getTweetsRequest; getVolumeRequest] ∧
  location_search (browser (onopen sample_second_param_world))
    = [("tweet", ""); ("tweet", "5")].
Proof. repeat split. Qed.

(** C10, amended: when the connection opens, the first [tweet] parameter
    of the URL has a non-empty value and the status is [idle], the client
    replaces the address by the bare path and sends, after the two data
    requests, a [start_analysis] request whose [tweet_id] is that value
    and whose [tweet_url] is [null]. *)
Theorem autostart_on_nonempty_tweet_param (w : World) (v : string) :
  isConnected (app w) = false →
  status (app w) = JStr "idle" →
  has_tweet_param (browser w) v →
  v ≠ "" →
  autostarts_on w v ∧
  field (startRequest JNull (JStr v)) "action" = JStr "start_analysis" ∧
  field (startRequest JNull (JStr v)) "tweet_id" = JStr v ∧
  location_pathname (browser (onopen w)) = location_pathname (browser w).
Proof.
  intros Hclosed Hidle Hparam Hv.
  unfold autostarts_on, onopen. rewrite Hclosed.
  unfold connectEffect. cbn [app browser setState isConnected status
    location_search location_pathname].
  unfold has_tweet_param in Hparam. rewrite Hparam, Hidle.
  rewrite (truthy_nonempty _ Hv). simpl.
  rewrite <- !app_assoc. simpl. repeat split.
Qed.

(** The redirect page, once the socket opens. *)
Lemma autostart_on_nonempty_tweet_param_witness :
  has_tweet_param (browser sample_redirect_world) "1234567890" ∧
  autostarts_on sample_redirect_world "1234567890".
Proof.
  split; [reflexivity |].
  apply (autostart_on_nonempty_tweet_param sample_redirect_world "1234567890");
    [reflexivity | reflexivity | reflexivity | discriminate].
Defined.

(** ** Properties of the narrowing search *)

Section Narrowing.

Import WindowNarrowing.

Variable matches : Post → bool.
Variable prefer_later : list Post → list Post → bool.
Variable resolution : Q.
Variable corpus : list Post.

Lemma mid_between w :
  well_formed w → (low_hour w <= mid w)%Q ∧ (mid w <= high_hour w)%Q.
Proof.
  unfold well_formed, mid, Qdiv. intros H.
  change (/ 2)%Q with (1 # 2)%Q. split; lra.
Qed.

(** One iteration moves exactly one bound to the midpoint. *)
Lemma narrow_cases w :
  narrow matches prefer_later corpus w
    = {| low_hour := mid w; high_hour := high_hour w |} ∨
  narrow matches prefer_later corpus w
    = {| low_hour := low_hour w; high_hour := mid w |}.
Proof.
  unfold WindowNarrowing.narrow.
  repeat case_match; auto.
Qed.

Lemma narrow_subwindow w :
  well_formed w →
  subwindow (narrow matches prefer_later corpus w) w ∧
  well_formed (narrow matches prefer_later corpus w).
Proof.
  intros Hw. destruct (mid_between w Hw) as [Hlow Hhigh].
  unfold subwindow, well_formed in *.
  destruct (narrow_cases w) as [-> | ->]; simpl; repeat split; lra.
Qed.

Lemma iterate_narrows fuel :
  ∀ w (i : nat) a,
    well_formed w →
    (w :: iterate matches prefer_later resolution corpus fuel w) !! i
      = Some a →
    well_formed a ∧
    ∀ b, (w :: iterate matches prefer_later resolution corpus fuel w) !! S i
           = Some b →
         subwindow b a.
Proof.
  induction fuel as [|fuel IH]; intros w i a Hw Ha.
  - destruct i; [| done]. simpl in Ha. inversion Ha; subst.
    split; [exact Hw | done].
  - simpl in *.
    destruct (converged resolution w).
    + destruct i; [| done]. simpl in Ha. inversion Ha; subst.
      split; [exact Hw | done].
    + destruct (narrow_subwindow w Hw) as [Hsub Hw'].
      destruct i as [|i].
      * simpl in Ha. inversion Ha; subst.
        split; [exact Hw |].
        intros b Hb. simpl in Hb. inversion Hb; subst. exact Hsub.
      * exact (IH _ i a Hw' Ha).
Qed.

End Narrowing.

(** C3: in every run of the narrowing search each window has
    [low_hour ≤ high_hour], and of two consecutive windows the later one
    is contained in the earlier one. *)
Theorem windows_narrow_monotonically
    (matches : WindowNarrowing.Post → bool)
    (prefer_later : list WindowNarrowing.Post → list WindowNarrowing.Post → bool)
    (resolution : Q) (max_iterations : nat)
    (corpus : list WindowNarrowing.Post)
    (i : nat) (earlier : WindowNarrowing.SearchWindow) :
  WindowNarrowing.windows matches prefer_later resolution max_iterations corpus
    !! i = Some earlier →
  (WindowNarrowing.low_hour earlier <= WindowNarrowing.high_hour earlier)%Q ∧
  ∀ later,
    WindowNarrowing.windows matches prefer_later resolution max_iterations
      corpus !! S i = Some later →
    WindowNarrowing.subwindow later earlier.
Proof.
  unfold WindowNarrowing.windows. intros Hi.
  assert (WindowNarrowing.well_formed WindowNarrowing.initial) as Hinit
    by (unfold WindowNarrowing.well_formed; simpl; lra).
  destruct (WindowNarrowing.matching matches corpus) as [|p ps].
  - destruct i; [| done]. simpl in Hi. inversion Hi; subst.
    split; [exact Hinit | done].
  - exact (iterate_narrows matches prefer_later resolution corpus
             max_iterations _ i earlier Hinit Hi).
Qed.

(** The first window of the sample run and the one that follows it. *)
Lemma windows_narrow_monotonically_witness :
  sample_windows !! 0%nat = Some WindowNarrowing.initial ∧
  ∀ later, sample_windows !! 1%nat = Some later →
           WindowNarrowing.subwindow later WindowNarrowing.initial.
Proof.
  split; [reflexivity |].
  apply (windows_narrow_monotonically (λ _, true) (λ _ _, false) (1 # 10) 20
           sample_corpus 0 WindowNarrowing.initial).
  reflexivity.
Defined.

(** ** Further properties of the client *)

(** *** What an inbound event can and cannot change *)

Lemma strictEqStr_true v lit : strictEqStr v lit = true → v = JStr lit.
Proof.
  destruct v; simpl; try discriminate.
  by intros ->%String.eqb_eq.
Qed.

Lemma strictEqStr_false v lit : v ≠ JStr lit → strictEqStr v lit = false.
Proof.
  intros Hne. destruct (strictEqStr v lit) eqn:E; [| reflexivity].
  by apply strictEqStr_true in E.
Qed.

(** Split on the [case] that [handleMessage m] takes; each branch keeps
    the fact that decided it. *)
Ltac by_case_of m :=
  unfold deliver, handleMessage;
  destruct (truthy m); cbn [negb];
  repeat match goal with
    | |- context [strictEqStr (field m "type") ?t] =>
        let E := fresh "Etype" in
        destruct (strictEqStr (field m "type") t) eqn:E;
        [apply strictEqStr_true in E |]
    end.

Lemma deliver_outside m w :
  browser (deliver m w) = browser w ∧
  isConnected (app (deliver m w)) = isConnected (app w).
Proof.
  by_case_of m; try (split; reflexivity).
  destruct (strictEqStr (field m "status") "analyzing"); split; reflexivity.
Qed.

(** No inbound event makes the client send a message, touch the page
    address or change what it believes about the connection. *)
Theorem events_never_reach_outside (m : JsVal) (w : World) :
  browser (deliver m w) = browser w ∧
  isConnected (app (deliver m w)) = isConnected (app w).
Proof.
  by_case_of m; try (split; reflexivity).
  destruct (strictEqStr (field m "status") "analyzing"); split; reflexivity.
Qed.

(** An event whose type has no setter behind it ([analysis_complete],
    an unknown type, no type at all, a payload that is not an object)
    leaves the client exactly as it was. *)
Theorem other_events_change_nothing (m : JsVal) (w : World) :
  (∀ t, t ∈ state_event_types → ¬ is_event t m) →
  deliver m w = w.
Proof.
  intros Hnone.
  assert (∀ t, t ∈ state_event_types → field m "type" ≠ JStr t) as Hne
    by exact Hnone.
  by_case_of m; try reflexivity;
    exfalso; eapply Hne; try eassumption;
    unfold state_event_types; set_solver.
Qed.

Lemma other_events_change_nothing_witness :
  (∀ t, t ∈ state_event_types → ¬ is_event t sample_complete_event) ∧
  deliver sample_complete_event sample_world = sample_world.
Proof.
  assert (∀ t, t ∈ state_event_types → ¬ is_event t sample_complete_event)
    as Hnone.
  { intros t Ht Hevent. unfold is_event in Hevent. simpl in Hevent.
    inversion Hevent; subst. unfold state_event_types in Ht.
    set_unfold. destruct_or!; discriminate. }
  split; [exact Hnone |].
  apply (other_events_change_nothing sample_complete_event sample_world Hnone).
Defined.

Lemma deliver_frame (m : JsVal) (w : World) :
  (¬ is_event "status" m → status (app (deliver m w)) = status (app w)) ∧
  (¬ is_event "log" m → logs (app (deliver m w)) = logs (app w)) ∧
  (¬ is_event "volume" m →
     volumeData (app (deliver m w)) = volumeData (app w)) ∧
  (¬ is_event "nlp_result" m →
     keywords (app (deliver m w)) = keywords (app w) ∧
     bigrams (app (deliver m w)) = bigrams (app w)) ∧
  (¬ is_event "search_progress" m →
     searchWindow (app (deliver m w)) = searchWindow (app w)) ∧
  (¬ is_event "source_found" m →
     sourceTweet (app (deliver m w)) = sourceTweet (app w) ∧
     iterations (app (deliver m w)) = iterations (app w)) ∧
  (¬ is_event "tweets" m → tweets (app (deliver m w)) = tweets (app w)) ∧
  (¬ is_event "status" m → ¬ is_event "nlp_result" m →
     isNLPLoading (app (deliver m w)) = isNLPLoading (app w)).
Proof.
  unfold is_event.
  by_case_of m;
    try destruct (strictEqStr (field m "status") "analyzing");
    simpl; repeat split; try reflexivity; intros; try contradiction;
    try (rewrite Etype in *; congruence).
Qed.

(** Every piece of state belongs to one event type (the loading flag to
    two): an event of another type leaves it as it was. *)
Theorem state_changes_only_under_its_event (m : JsVal) (w : World) :
  (¬ is_event "status" m → status (app (deliver m w)) = status (app w)) ∧
  (¬ is_event "log" m → logs (app (deliver m w)) = logs (app w)) ∧
  (¬ is_event "volume" m →
     volumeData (app (deliver m w)) = volumeData (app w)) ∧
  (¬ is_event "nlp_result" m →
     keywords (app (deliver m w)) = keywords (app w) ∧
     bigrams (app (deliver m w)) = bigrams (app w)) ∧
  (¬ is_event "search_progress" m →
     searchWindow (app (deliver m w)) = searchWindow (app w)) ∧
  (¬ is_event "source_found" m →
     sourceTweet (app (deliver m w)) = sourceTweet (app w) ∧
     iterations (app (deliver m w)) = iterations (app w)) ∧
  (¬ is_event "tweets" m → tweets (app (deliver m w)) = tweets (app w)) ∧
  (¬ is_event "status" m → ¬ is_event "nlp_result" m →
     isNLPLoading (app (deliver m w)) = isNLPLoading (app w)).
Proof.
  unfold is_event.
  by_case_of m;
    try destruct (strictEqStr (field m "status") "analyzing");
    simpl; repeat split; try reflexivity; intros; try contradiction;
    try (rewrite Etype in *; congruence).
Qed.

(** Receiving the same event a second time changes nothing more, unless
    it is a log event (which is appended again). *)
Theorem repeated_event_is_idempotent (m : JsVal) (w : World) :
  ¬ is_event "log" m →
  deliver m (deliver m w) = deliver m w.
Proof.
  unfold is_event. intros Hlog.
  by_case_of m; try reflexivity; try contradiction.
  destruct (strictEqStr (field m "status") "analyzing"); reflexivity.
Qed.

Lemma repeated_event_is_idempotent_witness :
  ¬ is_event "log" sample_progress ∧
  deliver sample_progress (deliver sample_progress sample_world)
    = deliver sample_progress sample_world.
Proof.
  assert (¬ is_event "log" sample_progress) as Hlog by discriminate.
  split; [exact Hlog |].
  apply (repeated_event_is_idempotent sample_progress sample_world Hlog).
Defined.

(** *** Sending *)

(** While the socket is not open nothing is sent: every [sendMessage] of
    a handler is dropped without a trace, and no handler opens the
    socket. *)
Theorem closed_socket_sends_nothing (cmds : list Cmd) (w : World) :
  socketOpen (browser w) = false →
  outbox (browser (run cmds w)) = outbox (browser w) ∧
  socketOpen (browser (run cmds w)) = false.
Proof.
  revert w. induction cmds as [|c cmds IH]; intros w Hclosed; [done |].
  change (run (c :: cmds) w) with (run cmds (exec w c)).
  assert (socketOpen (browser (exec w c)) = false ∧
          outbox (browser (exec w c)) = outbox (browser w)) as [Hc Ho].
  { destruct c; simpl; try done. unfold sendMessage. by rewrite Hclosed. }
  destruct (IH _ Hc) as [IHo IHc]. by rewrite IHo, Ho.
Qed.

Lemma closed_socket_sends_nothing_witness :
  socketOpen (browser sample_empty_param_world) = false ∧
  outbox (browser (run (handleStartAnalysis (JStr "u") JUndefined)
                     sample_empty_param_world)) = [] ∧
  logs (app (run (handleStartAnalysis (JStr "u") JUndefined)
               sample_empty_param_world)) = [].
Proof.
  split; [reflexivity |]. split; [| reflexivity].
  apply (closed_socket_sends_nothing
           (handleStartAnalysis (JStr "u") JUndefined)
           sample_empty_param_world).
  reflexivity.
Defined.

(** While the socket is open a handler's messages go out in the order
    of its [sendMessage] calls, after those sent before, none dropped
    and none repeated. *)
Theorem open_socket_sends_in_order (cmds : list Cmd) (w : World) :
  socketOpen (browser w) = true →
  outbox (browser (run cmds w)) = outbox (browser w) ++ messagesOf cmds ∧
  socketOpen (browser (run cmds w)) = true.
Proof.
  revert w. induction cmds as [|c cmds IH]; intros w Hopen.
  { simpl. by rewrite app_nil_r. }
  change (run (c :: cmds) w) with (run cmds (exec w c)).
  assert (socketOpen (browser (exec w c)) = true) as Hc.
  { destruct c; simpl; try done. unfold sendMessage. by rewrite Hopen. }
  destruct (IH _ Hc) as [IHo IHc]. split; [| exact IHc].
  rewrite IHo. destruct c; simpl; try reflexivity.
  unfold sendMessage. rewrite Hopen. simpl. by rewrite <- app_assoc.
Qed.

Lemma open_socket_sends_in_order_witness :
  socketOpen (browser sample_world) = true ∧
  outbox (browser (run (handleStartAnalysis (JStr "u") JUndefined)
                     sample_world))
    = [startRequest (JStr "u") JNull].
Proof.
  split; [reflexivity |].
  apply (open_socket_sends_in_order
           (handleStartAnalysis (JStr "u") JUndefined) sample_world).
  reflexivity.
Defined.

(** *** The form *)

(** A submission of the enabled form over an open socket sends one
    [start_analysis] request whose [tweet_url] is the text of the input,
    unchecked and possibly empty, and whose [tweet_id] is [null]. *)
Theorem form_submission_sends_url (w : World) (url : string) :
  ReportForm_isDisabled (app w) = false →
  socketOpen (browser w) = true →
  outbox (browser (run (App_submitForm (app w) url) w))
    = outbox (browser w) ++ [startRequest (JStr url) JNull] ∧
  field (startRequest (JStr url) JNull) "tweet_url" = JStr url ∧
  field (startRequest (JStr url) JNull) "tweet_id" = JNull.
Proof.
  intros Henabled Hopen.
  split; [| split; reflexivity].
  unfold App_submitForm, ReportForm_submit. rewrite Henabled.
  unfold ReportForm_button_disabled, handleSubmit.
  exact (proj1 (run_open_socket
                  (handleStartAnalysis (JStr url) JUndefined) w Hopen)).
Qed.

Lemma form_submission_sends_url_witness :
  ReportForm_isDisabled (app sample_connected_world) = false ∧
  outbox (browser (run (App_submitForm (app sample_connected_world) "")
                     sample_connected_world))
    = [startRequest (JStr "") JNull].
Proof.
  split; [reflexivity |].
  apply (form_submission_sends_url sample_connected_world "");
    reflexivity.
Defined.

(** The form follows the status events: after one that carries the
    string [v] it is disabled exactly when [v] is [analyzing] or
    [searching], or the client is not connected. *)
Theorem status_event_sets_form (m : JsVal) (w : World) (v : string) :
  is_event "status" m →
  field m "status" = JStr v →
  ReportForm_isDisabled (app (deliver m w))
    = (String.eqb v "analyzing" || String.eqb v "searching")
      || negb (isConnected (app w)).
Proof.
  intros Hm Hv. unfold ReportForm_isDisabled, isAnalyzing.
  rewrite (deliver_status _ _ Hm), Hv.
  by rewrite (proj2 (deliver_outside m w)).
Qed.

Lemma status_event_sets_form_witness :
  is_event "status" sample_status_event ∧
  ReportForm_isDisabled (app (deliver sample_status_event
                                sample_connected_world)) = false.
Proof.
  split; [reflexivity |].
  apply (status_event_sets_form sample_status_event sample_connected_world
           "failed"); reflexivity.
Defined.

(** *** Reconnecting *)

Lemma onopen_without_autostart w :
  isConnected (app w) = false →
  truthy (searchParams_get (location_search (browser w)) "tweet")
    && strictEqStr (status (app w)) "idle" = false →
  onopen w
    = {| app := setState (SetIsConnected true) (app w);
         browser := {| socketOpen := true;
                       outbox := outbox (browser w)
                                 ++ [getTweetsRequest; getVolumeRequest];
                       location_pathname := location_pathname (browser w);
                       location_search := location_search (browser w) |} |}.
Proof.
  intros Hclosed Hguard. unfold onopen. rewrite Hclosed.
  unfold connectEffect.
  cbn [app browser setState isConnected status location_search
       location_pathname].
  rewrite Hguard. cbn [app_nil_r List.app run fold_left].
  unfold exec, effect, sendMessage. simpl. by rewrite <- app_assoc.
Qed.

(** When the connection opens while the status is not [idle], or the
    URL has no [tweet] parameter with a value, the client asks for the
    tweets and the volume and does nothing else: no analysis is started,
    the state of the run in progress and the page address are kept. *)
Theorem reconnect_does_not_restart (w : World) :
  isConnected (app w) = false →
  status (app w) ≠ JStr "idle" ∨
    (∀ v, has_tweet_param (browser w) v → v = "") →
  app (onopen w) = setState (SetIsConnected true) (app w) ∧
  outbox (browser (onopen w))
    = outbox (browser w) ++ [getTweetsRequest; getVolumeRequest] ∧
  location_search (browser (onopen w)) = location_search (browser w) ∧
  location_pathname (browser (onopen w)) = location_pathname (browser w).
Proof.
  intros Hclosed Hwhy.
  rewrite (onopen_without_autostart w Hclosed); [by repeat split |].
  destruct Hwhy as [Hstatus | Hparam].
  - rewrite (strictEqStr_false _ _ Hstatus). apply andb_false_r.
  - unfold has_tweet_param, searchParams_get in *.
    destruct (List.find _ (location_search (browser w))) as [p|];
      [| reflexivity].
    by rewrite (Hparam (snd p) eq_refl).
Qed.

Lemma reconnect_does_not_restart_witness :
  isConnected (app sample_reconnecting_world) = false ∧
  status (app sample_reconnecting_world) ≠ JStr "idle" ∧
  outbox (browser (onopen sample_reconnecting_world))
    = [getTweetsRequest; getVolumeRequest].
Proof.
  split; [reflexivity |]. split; [discriminate |].
  apply (reconnect_does_not_restart sample_reconnecting_world);
    [reflexivity | left; discriminate].
Defined.

Lemma onopen_with_autostart w v :
  isConnected (app w) = false →
  status (app w) = JStr "idle" →
  has_tweet_param (browser w) v →
  v ≠ "" →
  browser (onopen w)
    = {| socketOpen := true;
         outbox := outbox (browser w)
                   ++ [getTweetsRequest; getVolumeRequest;
                       startRequest JNull (JStr v)];
         location_pathname := location_pathname (browser w);
         location_search := [] |} ∧
  isConnected (app (onopen w)) = true ∧
  status (app (onopen w)) = JStr "idle".
Proof.
  intros Hclosed Hidle Hparam Hv. unfold onopen. rewrite Hclosed.
  unfold connectEffect.
  cbn [app browser setState isConnected status location_search
       location_pathname].
  unfold has_tweet_param in Hparam. rewrite Hparam, Hidle.
  rewrite (truthy_nonempty _ Hv).
  cbn [andb strictEqStr List.app run fold_left].
  change ("idle" =? "idle")%string with true. cbv iota.
  unfold handleStartAnalysis. cbn [fold_left].
  unfold exec, effect, sendMessage. simpl.
  rewrite <- !app_assoc. simpl. done.
Qed.

(** The auto-start happens once: it takes the [tweet] parameter out of
    the address, so when the connection is lost and opens again the
    client only asks for the tweets and the volume, even though its
    status is still [idle]. *)
Theorem autostart_happens_once (w : World) (v : string) :
  isConnected (app w) = false →
  status (app w) = JStr "idle" →
  has_tweet_param (browser w) v →
  v ≠ "" →
  outbox (browser (onopen (onclose (onopen w))))
    = outbox (browser (onopen w)) ++ [getTweetsRequest; getVolumeRequest] ∧
  messagesOf (connectEffect (app (onopen w)) (browser (onopen w)))
    = [getTweetsRequest; getVolumeRequest].
Proof.
  intros Hclosed Hidle Hparam Hv.
  destruct (onopen_with_autostart w v Hclosed Hidle Hparam Hv)
    as (Hbrowser & Hconn & Hstatus).
  split.
  - rewrite (onopen_without_autostart (onclose (onopen w))).
    + simpl. reflexivity.
    + reflexivity.
    + simpl. by rewrite Hbrowser.
  - unfold connectEffect. rewrite Hconn, Hbrowser. reflexivity.
Qed.

Lemma autostart_happens_once_witness :
  has_tweet_param (browser sample_redirect_world) "1234567890" ∧
  outbox (browser (onopen (onclose (onopen sample_redirect_world))))
    = [getTweetsRequest; getVolumeRequest;
       startRequest JNull (JStr "1234567890");
       getTweetsRequest; getVolumeRequest].
Proof.
  split; [reflexivity |].
  apply (autostart_happens_once sample_redirect_world "1234567890");
    [reflexivity | reflexivity | reflexivity | discriminate].
Defined.

(** *** A run after a restart *)

Lemma deliver_logs_by_type m w :
  logs (app (deliver m w))
    = logs (app w)
      ++ (if strictEqStr (field m "type") "log" then [m] else []).
Proof.
  destruct (strictEqStr (field m "type") "log") eqn:E.
  - apply strictEqStr_true in E. by apply deliver_log.
  - rewrite app_nil_r. apply (deliver_frame m w).
    unfold is_event. intros Hlog. rewrite Hlog in E. discriminate.
Qed.

Lemma deliverAll_logs_by_type events :
  ∀ w, logs (app (deliverAll events w))
       = logs (app w)
         ++ List.filter (λ m, strictEqStr (field m "type") "log") events.
Proof.
  induction events as [|m events IH]; intros w.
  - simpl. by rewrite app_nil_r.
  - rewrite deliverAll_cons.
    rewrite IH, deliver_logs_by_type. simpl.
    destruct (strictEqStr (field m "type") "log").
    + by rewrite <- app_assoc.
    + by rewrite app_nil_r.
Qed.

Lemma processed_sublist schedule :
  ∀ pending,
    processed schedule pending
      `sublist_of` option_list pending ++ arrivals schedule.
Proof.
  induction schedule as [|s schedule IH]; intros pending;
    [apply sublist_nil_l |].
  destruct s as [data |]; simpl.
  - apply sublist_inserts_l. exact (IH (Some data)).
  - destruct pending as [data |]; simpl.
    + apply sublist_skip. exact (IH None).
    + exact (IH None).
Qed.

Lemma Console_messages now logs :
  line_message <$> Console now logs = (λ entry, field entry "message") <$> logs.
Proof.
  unfold Console. induction logs as [|entry logs IH]; [reflexivity |].
  simpl. f_equal. exact IH.
Qed.

(** However arrivals and renders are interleaved, the log grows by the
    log events among the messages the effect gets to see, each once and
    in arrival order: a subsequence of what arrived, never a reordering,
    a repetition or an entry of another kind.  When React renders after
    every arrival these are all the log events, and after
    [handleStartAnalysis] the log holds those of the new run only.  The
    console shows the message of each entry, in the order of the log. *)
Theorem log_grows_by_the_processed_log_events (now url tweetId : JsVal)
    (schedule : list Step) (events : list JsVal) (w : World) :
  logs (app (world (play schedule (settled w))))
    = logs (app w)
      ++ List.filter (λ m, strictEqStr (field m "type") "log")
           (processed schedule None) ∧
  processed schedule None `sublist_of` arrivals schedule ∧
  logs (app (deliverAll events w))
    = logs (app w)
      ++ List.filter (λ m, strictEqStr (field m "type") "log") events ∧
  logs (app (deliverAll events (run (handleStartAnalysis url tweetId) w)))
    = List.filter (λ m, strictEqStr (field m "type") "log") events ∧
  line_message <$> Console now (logs (app (world (play schedule (settled w)))))
    = (λ entry, field entry "message")
      <$> logs (app (world (play schedule (settled w)))).
Proof.
  split; [| split; [| split; [| split]]].
  - rewrite play_world. apply deliverAll_logs_by_type.
  - exact (processed_sublist schedule None).
  - apply deliverAll_logs_by_type.
  - by rewrite deliverAll_logs_by_type.
  - apply Console_messages.
Qed.

Lemma deliverAll_sourceTweet events :
  ∀ w, Forall (λ m, ¬ is_event "source_found" m) events →
       sourceTweet (app (deliverAll events w)) = sourceTweet (app w).
Proof.
  induction events as [|m events IH]; intros w Hall; [reflexivity |].
  inversion Hall as [|? ? Hm Hrest]; subst.
  rewrite deliverAll_cons.
  rewrite (IH _ Hrest).
  by apply (deliver_frame m w).
Qed.

(** After [handleStartAnalysis] the result panel is back on its
    placeholder, whatever the previous run had found, and stays there
    under every event that is not [source_found]. *)
Theorem result_panel_waits_for_source_found (url tweetId : JsVal)
    (events : list JsVal) (w : World) :
  Forall (λ m, ¬ is_event "source_found" m) events →
  App_sourceResult
    (app (deliverAll events (run (handleStartAnalysis url tweetId) w)))
    = Standby.
Proof.
  intros Hall. unfold App_sourceResult.
  by rewrite (deliverAll_sourceTweet events _ Hall).
Qed.

Lemma result_panel_waits_for_source_found_witness :
  Forall (λ m, ¬ is_event "source_found" m)
    [sample_analyzing_event; sample_progress] ∧
  App_sourceResult
    (app (deliverAll [sample_analyzing_event; sample_progress]
            (run (handleStartAnalysis (JStr "u") JUndefined)
               (deliver sample_source_found sample_world))))
    = Standby.
Proof.
  assert (Forall (λ m, ¬ is_event "source_found" m)
            [sample_analyzing_event; sample_progress]) as Hall
    by (repeat constructor; discriminate).
  split; [exact Hall |].
  apply (result_panel_waits_for_source_found (JStr "u") JUndefined
           [sample_analyzing_event; sample_progress]
           (deliver sample_source_found sample_world) Hall).
Defined.

(** *** The keyword card *)

Lemma handleMessage_nlp_result m :
  is_event "nlp_result" m →
  handleMessage m
    = [SetKeywords (field m "keywords"); SetBigrams (field m "bigrams");
       SetIsNLPLoading false].
Proof. intros H. event_commands H. reflexivity. Qed.

Lemma deliver_keeps_loading m w :
  ¬ is_event "nlp_result" m →
  isNLPLoading (app w) = true →
  isNLPLoading (app (deliver m w)) = true.
Proof.
  unfold is_event. intros Hm Hloading.
  by_case_of m; try exact Hloading; try contradiction.
  by destruct (strictEqStr (field m "status") "analyzing").
Qed.

Lemma deliverAll_keeps_loading events :
  ∀ w, Forall (λ m, ¬ is_event "nlp_result" m) events →
       isNLPLoading (app w) = true →
       isNLPLoading (app (deliverAll events w)) = true.
Proof.
  induction events as [|m events IH]; intros w Hall Hloading;
    [exact Hloading |].
  inversion Hall as [|? ? Hm Hrest]; subst.
  rewrite deliverAll_cons.
  apply (IH _ Hrest). by apply deliver_keeps_loading.
Qed.

Section KeywordCardProperties.

Variable convertedIsPositive : JsVal → option bool.

(** A status event [analyzing] puts the keyword card on its spinner,
    and only an [nlp_result] event takes it off again: not a later
    status event, whatever it says, and not a new start. *)
Theorem spinner_stays_until_nlp_result (m url tweetId : JsVal)
    (events : list JsVal) (w : World) :
  is_event "status" m →
  field m "status" = JStr "analyzing" →
  Forall (λ e, ¬ is_event "nlp_result" e) events →
  App_keywordCard convertedIsPositive
    (app (deliverAll events (deliver m w))) = Some KeywordsLoading ∧
  App_keywordCard convertedIsPositive
    (app (run (handleStartAnalysis url tweetId)
            (deliverAll events (deliver m w)))) = Some KeywordsLoading.
Proof.
  intros Hm Hanalyzing Hall.
  assert (isNLPLoading (app (deliver m w)) = true) as Hset.
  { unfold deliver. rewrite (handleMessage_status _ Hm), Hanalyzing.
    reflexivity. }
  pose proof (deliverAll_keeps_loading events _ Hall Hset) as Hkept.
  unfold App_keywordCard, KeywordCard. split.
  - by rewrite Hkept.
  - change (isNLPLoading (app (run (handleStartAnalysis url tweetId)
                                 (deliverAll events (deliver m w)))))
      with (isNLPLoading (app (deliverAll events (deliver m w)))).
    by rewrite Hkept.
Qed.

(** An [nlp_result] event with arrays takes the card off the spinner:
    without keywords it shows the placeholder, otherwise every keyword
    in order and the first three bigrams at most. *)
Theorem nlp_result_fills_keyword_card (m : JsVal) (w : World)
    (pills chips : list JsVal) :
  is_event "nlp_result" m →
  field m "keywords" = JArr pills →
  field m "bigrams" = JArr chips →
  App_keywordCard convertedIsPositive (app (deliver m w))
    = Some match pills with
           | [] => KeywordsWaiting
           | _ :: _ =>
               KeywordList pills
                 match chips with
                 | [] => SlotValue (JBool false)
                 | _ :: _ => SlotChips (take 3 chips)
                 end
           end.
Proof.
  intros Hm Hpills Hchips.
  unfold App_keywordCard, deliver.
  rewrite (handleMessage_nlp_result _ Hm), Hpills, Hchips. simpl.
  unfold KeywordCard, bigramsSlot. simpl.
  destruct pills; [reflexivity |]. simpl.
  destruct chips; reflexivity.
Qed.

End KeywordCardProperties.

Lemma spinner_stays_until_nlp_result_witness :
  is_event "status" sample_analyzing_event ∧
  Forall (λ e, ¬ is_event "nlp_result" e)
    [sample_status_event; sample_complete_event] ∧
  App_keywordCard (λ _, None)
    (app (deliverAll [sample_status_event; sample_complete_event]
            (deliver sample_analyzing_event sample_world)))
    = Some KeywordsLoading.
Proof.
  assert (Forall (λ e, ¬ is_event "nlp_result" e)
            [sample_status_event; sample_complete_event]) as Hall
    by (repeat constructor; discriminate).
  split; [reflexivity |]. split; [exact Hall |].
  apply (spinner_stays_until_nlp_result (λ _, None) sample_analyzing_event
           JNull JNull [sample_status_event; sample_complete_event]
           sample_world eq_refl eq_refl Hall).
Defined.

Lemma nlp_result_fills_keyword_card_witness :
  is_event "nlp_result" sample_nlp_result ∧
  App_keywordCard (λ _, None) (app (deliver sample_nlp_result sample_world))
    = Some (KeywordList [JStr "k1"; JStr "k2"]
              (SlotChips [JStr "b1"; JStr "b2"; JStr "b3"])).
Proof.
  split; [reflexivity |].
  apply (nlp_result_fills_keyword_card (λ _, None) sample_nlp_result
           sample_world [JStr "k1"; JStr "k2"]
           [JStr "b1"; JStr "b2"; JStr "b3"; JStr "b4"]);
    reflexivity.
Defined.

(** *** The timeline chart *)





(** *** More on the tweet feed *)

Lemma truthy_andAlso_bool a b :
  truthy (andAlso a (JBool b)) = truthy a && b.
Proof.
  unfold andAlso. destruct (truthy a) eqn:E; simpl; [reflexivity | exact E].
Qed.

Lemma member_some_field v k x : member v k = Some x → x = field v k.
Proof. destruct v; simpl; congruence. Qed.

Lemma feedCard_isSource status i tweet card :
  feedCard status i tweet = Some card →
  card_tweet card = tweet ∧
  truthy (card_isSource card)
    = truthy (field tweet "is_source") && strictEqStr status "found".
Proof.
  unfold feedCard.
  destruct (member tweet "id") as [id|] eqn:Hid; [| discriminate].
  destruct (member tweet "is_source") as [is_source|] eqn:Hsrc;
    [| discriminate].
  simpl. intros [= <-]. simpl. split; [reflexivity |].
  rewrite truthy_andAlso_bool. f_equal. f_equal.
  by apply member_some_field.
Qed.

Lemma feedCards_isSource status posts :
  ∀ i cards,
    feedCards status i posts = Some cards →
    Forall (λ card,
              truthy (card_isSource card)
                = truthy (field (card_tweet card) "is_source")
                  && strictEqStr status "found") cards.
Proof.
  induction posts as [|tweet rest IH]; intros i cards Hcards; simpl in Hcards.
  - inversion Hcards. constructor.
  - destruct (feedCard status i tweet) as [card|] eqn:Hcard; [| discriminate].
    destruct (feedCards status (S i) rest) as [cards'|] eqn:Hrest;
      [| discriminate].
    simpl in Hcards. inversion Hcards; subst.
    constructor; [| by eapply IH].
    destruct (feedCard_isSource _ _ _ _ Hcard) as [-> ->]. reflexivity.
Qed.

(** A card of the feed is marked as the source exactly when its post
    has a truthy [is_source] and the status is [found]; in any other
    status no card is marked. *)
Theorem source_mark_needs_found (tweets status : JsVal)
    (cards : list FeedCard) :
  TweetFeed tweets status = Some cards →
  Forall (λ card,
            truthy (card_isSource card)
              = truthy (field (card_tweet card) "is_source")
                && strictEqStr status "found") cards ∧
  (strictEqStr status "found" = false →
   Forall (λ card, truthy (card_isSource card) = false) cards).
Proof.
  intros Hfeed.
  assert (Forall (λ card,
            truthy (card_isSource card)
              = truthy (field (card_tweet card) "is_source")
                && strictEqStr status "found") cards) as Hall.
  { destruct tweets; simpl in Hfeed; try discriminate.
    by eapply feedCards_isSource. }
  split; [exact Hall |].
  intros Hstatus. eapply Forall_impl; [exact Hall |].
  intros card ->. rewrite Hstatus. apply andb_false_r.
Qed.

Lemma feedCards_some_nonNullish status posts :
  ∀ i, is_Some (feedCards status i posts) → Forall nonNullish posts.
Proof.
  induction posts as [|tweet rest IH]; intros i [cards Hcards];
    [constructor |].
  simpl in Hcards.
  destruct (feedCard status i tweet) as [card|] eqn:Hcard; [| discriminate].
  destruct (feedCards status (S i) rest) as [cards'|] eqn:Hrest;
    [| discriminate].
  constructor; [| by eapply IH].
  by destruct tweet.
Qed.

(** The feed renders exactly when [tweets] is an array none of whose
    first 30 elements is [null]: one [null] among them makes the whole
    render throw, one further down is never looked at. *)
Theorem feed_renders_iff_no_null_shown (tweets status : JsVal) :
  is_Some (TweetFeed tweets status) ↔
  ∃ posts, tweets = JArr posts ∧ Forall nonNullish (take 30 posts).
Proof.
  split.
  - intros Hsome. destruct tweets; simpl in Hsome;
      try (by destruct Hsome).
    eexists. split; [reflexivity |].
    by eapply feedCards_some_nonNullish.
  - intros (posts & -> & Hposts). simpl. by apply feedCards_total.
Qed.

Lemma source_mark_needs_found_witness :
  TweetFeed (JArr [sample_flagged_post]) (JStr "searching")
    = Some [sample_flagged_card] ∧
  Forall (λ card, truthy (card_isSource card) = false) [sample_flagged_card].
Proof.
  split; [reflexivity |].
  apply (source_mark_needs_found (JArr [sample_flagged_post])
           (JStr "searching") [sample_flagged_card] eq_refl).
  reflexivity.
Defined.

(** *** Losing the connection *)

(** When the socket closes the client keeps everything it shows (status,
    log, keywords, window, result, feed), disables the form whatever the
    status is, and sends nothing until a socket opens again. *)
Theorem connection_loss_keeps_state (w : World) (url : string)
    (cmds : list Cmd) :
  setState (SetIsConnected true) (app (onclose w))
    = setState (SetIsConnected true) (app w) ∧
  isConnected (app (onclose w)) = false ∧
  ReportForm_button_disabled (ReportForm_isDisabled (app (onclose w)))
    = true ∧
  App_submitForm (app (onclose w)) url = [] ∧
  outbox (browser (run cmds (onclose w))) = outbox (browser w).
Proof.
  split; [reflexivity |]. split; [reflexivity |].
  assert (ReportForm_isDisabled (app (onclose w)) = true) as Hdisabled.
  { unfold ReportForm_isDisabled. simpl. apply orb_true_r. }
  split; [exact Hdisabled |]. split.
  - unfold App_submitForm, ReportForm_submit. by rewrite Hdisabled.
  - exact (proj1 (run_closed_socket cmds (onclose w) eq_refl)).
Qed.

(** *** Which statuses look idle *)

Lemma StatusBadge_builtIn s :
  s ∈ objectPrototypeMembers → StatusBadge s = builtInBadge.
Proof.
  unfold objectPrototypeMembers. intros Hs.
  set_unfold. destruct_or!; subst; try done; reflexivity.
Qed.

(** The badge of the idle state is shown for [idle] itself and for
    every status string that is neither one of the other three
    configured statuses nor the name of a built-in member of objects,
    and for no other status. *)
Theorem badge_is_idle_exactly_when (s : string) :
  StatusBadge s = StatusBadge "idle" ↔
  (s = "idle" ∨
   ((s ∉ configured_statuses) ∧ (s ∉ objectPrototypeMembers))).
Proof.
  split.
  - intros Hidle.
    destruct (decide (s ∈ configured_statuses)) as [Hconf | Hconf].
    + left. destruct (decide (s = "idle")) as [-> | Hne]; [reflexivity |].
      exfalso.
      apply (badges_distinct_configured s "idle");
        [exact Hconf | constructor | exact Hne | exact Hidle].
    + right. split; [exact Hconf |]. intros Hmember.
      rewrite (StatusBadge_builtIn _ Hmember) in Hidle.
      vm_compute in Hidle. discriminate.
  - intros [-> | [Hconf Hmember]]; [reflexivity |].
    by apply StatusBadge_fallback.
Qed.
